(** * FX risk aggregator: trade schema, Garman-Kohlhagen pricing, aggregation

    A shallow embedding of [src/models.py], [src/pricing.py],
    [src/aggregator.py] and the processing loop of [main.py].  Python floats
    are read as real numbers, each operation exact; the range of the finite
    floats enters where the code raises on leaving it ([sigma ** 2]) and
    where an output is said to be finite.  Python exceptions are the left
    summand of a result type; a DataFrame built from the driver's result
    dictionaries is the list of its rows. *)

From Stdlib Require Import Reals Lra Lia List String Ascii Bool ZArith Sorted
  Permutation.
Import ListNotations.

Local Open Scope R_scope.

(** ** The standard normal law ([scipy.stats.norm]) *)

Module Normal.

(** The unnormalised Gaussian weight exp(-t^2/2). *)
Definition gauss (t : R) : R := exp (- (t * t) / 2).

Lemma gauss_pos (t : R) : 0 < gauss t.
Proof. apply exp_pos. Qed.

Lemma gauss_le_1 (t : R) : gauss t <= 1.
Proof.
  unfold gauss. rewrite <- exp_0.
  destruct (Req_dec t 0) as [-> | Hne].
  - right. f_equal. lra.
  - left. apply exp_increasing. nra.
Qed.

Lemma gauss_decreasing (a b : R) : 0 <= a -> a <= b -> gauss b <= gauss a.
Proof.
  intros Ha Hab. unfold gauss.
  destruct (Req_dec a b) as [-> | Hne]; [lra |].
  left. apply exp_increasing. nra.
Qed.

Lemma gauss_continuity : continuity gauss.
Proof.
  apply derivable_continuous. unfold gauss. reg.
Qed.

Lemma gauss_integrable (a b : R) : Riemann_integrable gauss a b.
Proof.
  destruct (Rle_dec a b) as [Hab | Hab].
  - apply continuity_implies_RiemannInt; [exact Hab |].
    intros x _. apply gauss_continuity.
  - apply RiemannInt_P1. apply continuity_implies_RiemannInt; [lra |].
    intros x _. apply gauss_continuity.
Qed.

(** The integral of the Gaussian weight over [a, b]. *)
Definition gauss_int (a b : R) : R := RiemannInt (gauss_integrable a b).

Lemma gauss_int_refl (a : R) : gauss_int a a = 0.
Proof. unfold gauss_int. apply RiemannInt_P9. Qed.

Lemma gauss_int_chasles (a b c : R) :
  gauss_int a b + gauss_int b c = gauss_int a c.
Proof. unfold gauss_int. apply RiemannInt_P26. Qed.

Lemma gauss_int_lower (a b : R) :
  0 <= a -> a <= b -> gauss b * (b - a) <= gauss_int a b.
Proof.
  intros Ha Hab. unfold gauss_int.
  apply (@RiemannInt_const_bound gauss a b (gauss b) 1); [exact Hab |].
  intros x Hx. split.
  - apply gauss_decreasing; lra.
  - apply gauss_le_1.
Qed.

Lemma gauss_int_nonneg (a b : R) : 0 <= a -> a <= b -> 0 <= gauss_int a b.
Proof.
  intros Ha Hab.
  apply Rle_trans with (gauss b * (b - a)); [| now apply gauss_int_lower].
  apply Rmult_le_pos; [left; apply gauss_pos | lra].
Qed.

Lemma gauss_int_pos (a b : R) : 0 <= a -> a < b -> 0 < gauss_int a b.
Proof.
  intros Ha Hab.
  apply Rlt_le_trans with (gauss b * (b - a)); [| apply gauss_int_lower; lra].
  apply Rmult_lt_0_compat; [apply gauss_pos | lra].
Qed.

(** An integrable majorant with a closed-form primitive:
    exp(-t^2/2) <= exp(1/2 - t), whose primitive is [tail]. *)
Definition tail (t : R) : R := - exp (/ 2 - t).

Lemma tail_derivable_pt_lim (x : R) : derivable_pt_lim tail x (exp (/ 2 - x)).
Proof.
  unfold tail.
  replace (exp (/ 2 - x)) with (- (exp (/ 2 - x) * (0 - 1))) by ring.
  apply derivable_pt_lim_opp.
  apply (derivable_pt_lim_comp (fun t => / 2 - t) exp).
  - apply derivable_pt_lim_minus.
    + apply derivable_pt_lim_const.
    + apply derivable_pt_lim_id.
  - apply derivable_pt_lim_exp.
Qed.

Lemma tail_derivable : derivable tail.
Proof. intro x. exists (exp (/ 2 - x)). apply tail_derivable_pt_lim. Qed.

Lemma tail_derive (x : R) : derive tail tail_derivable x = exp (/ 2 - x).
Proof. unfold derive. apply derive_pt_eq_0. apply tail_derivable_pt_lim. Qed.

Lemma tail_derive_continuity : continuity (derive tail tail_derivable).
Proof.
  intro x.
  apply (continuity_pt_locally_ext (fun t => exp (/ 2 - t)) _ 1 x); [lra | |].
  - intros y _. symmetry. apply tail_derive.
  - apply derivable_continuous_pt. reg.
Qed.

Definition tail_C1 : C1_fun := mkC1 tail_derive_continuity.

Lemma gauss_le_tail (x : R) : gauss x <= exp (/ 2 - x).
Proof.
  unfold gauss.
  destruct (Req_dec x 1) as [-> | Hne].
  - right. f_equal. lra.
  - left. apply exp_increasing.
    assert (0 < (x - 1) * (x - 1)) by nra. lra.
Qed.

Lemma gauss_int_upper (x : R) : 0 <= x -> gauss_int 0 x < exp (/ 2).
Proof.
  intros Hx.
  pose (pr := RiemannInt_P32 tail_C1 0 x).
  apply Rle_lt_trans with (RiemannInt pr).
  - unfold gauss_int. apply RiemannInt_P19; [exact Hx |].
    intros t _. simpl. rewrite tail_derive. apply gauss_le_tail.
  - rewrite (RiemannInt_P33 tail_C1 pr Hx). simpl. unfold tail.
    replace (/ 2 - 0) with (/ 2) by ring.
    pose proof (exp_pos (/ 2 - x)). lra.
Qed.

Lemma gauss_int_mono (a b : R) :
  0 <= a -> a <= b -> gauss_int 0 a <= gauss_int 0 b.
Proof.
  intros Ha Hab. rewrite <- (gauss_int_chasles 0 a b).
  pose proof (gauss_int_nonneg a b Ha Hab). lra.
Qed.

(** The mass of the Gaussian weight on the positive half line: the least
    upper bound of the integrals over [0, x]. *)
Definition half_masses (y : R) : Prop := exists x, 0 <= x /\ y = gauss_int 0 x.

Lemma half_masses_bound : bound half_masses.
Proof.
  exists (exp (/ 2)). intros y [x [Hx ->]]. left. now apply gauss_int_upper.
Qed.

Lemma half_masses_inhabited : exists y, half_masses y.
Proof. exists (gauss_int 0 0), 0. split; [lra | reflexivity]. Qed.

Definition half_mass : R :=
  proj1_sig (completeness half_masses half_masses_bound half_masses_inhabited).

Lemma half_mass_lub : is_lub half_masses half_mass.
Proof.
  unfold half_mass.
  destruct (completeness half_masses half_masses_bound half_masses_inhabited).
  assumption.
Qed.

Lemma gauss_int_lt_half_mass (x : R) : 0 <= x -> gauss_int 0 x < half_mass.
Proof.
  intros Hx.
  apply Rlt_le_trans with (gauss_int 0 (x + 1)).
  - rewrite <- (gauss_int_chasles 0 x (x + 1)).
    pose proof (gauss_int_pos x (x + 1) Hx). lra.
  - apply (proj1 half_mass_lub). exists (x + 1). split; [lra | reflexivity].
Qed.

Lemma half_mass_pos : 0 < half_mass.
Proof.
  pose proof (gauss_int_lt_half_mass 0 (Rle_refl 0)) as H.
  now rewrite gauss_int_refl in H.
Qed.

(** [norm.pdf]: the density exp(-x^2/2) / sqrt(2 pi). *)
Definition norm_pdf (x : R) : R := gauss x / sqrt (2 * PI).

(** [norm.cdf]: the mass of the density to the left of x over its total
    mass, written through the half-line integral as the law is symmetric:
    1/2 + m(x) for 0 <= x and 1/2 - m(-x) otherwise, where
    m(x) = (integral of the weight over [0, x]) / (total mass). *)
Definition norm_cdf (x : R) : R :=
  if Rle_dec 0 x
  then / 2 + gauss_int 0 x / (2 * half_mass)
  else / 2 - gauss_int 0 (- x) / (2 * half_mass).

End Normal.

(** ** The Python fragments the modules rely on *)

Module Py.

(** Exceptions the pricing code and the driver's loop can meet.
    [ValueError] is the class the driver reports as a pricing (domain)
    failure; none of the others is a subclass of it. *)
Inductive exn : Type :=
| ZeroDivisionError
| OverflowError
| UnboundLocalError (name : string)
| ValueError (msg : string)
| TypeError.

(** [inl e]: the call raised [e]; [inr a]: it returned [a]. *)
Definition result (A : Type) : Type := (exn + A)%type.

Definition ret {A : Type} (a : A) : result A := inr a.

Definition bind {A B : Type} (m : result A) (k : A -> result B) : result B :=
  match m with
  | inl e => inl e
  | inr a => k a
  end.

(** Python's [x / y] on floats. *)
Definition truediv (x y : R) : result R :=
  if Req_dec_T y 0 then inl ZeroDivisionError else inr (x / y).

(** The largest finite float: (2^53 - 1) 2^971. *)
Definition float_max : R := (2 ^ 53 - 1) * 2 ^ 971.


(** Python's [x ** n] on a float: it raises [OverflowError] when the
    result is out of the range of the finite floats.  (The other float
    operations of Python and those of numpy give an infinity instead.) *)
Definition float_pow (x : R) (n : nat) : result R :=
  if Rlt_dec float_max (Rabs (x ^ n)) then inl OverflowError
  else inr (x ^ n).

(** [s.split(sep)] for a one-character separator. *)
Fixpoint split (sep : ascii) (s : string) : list string :=
  match s with
  | EmptyString => [EmptyString]
  | String c rest =>
      if Ascii.eqb c sep then EmptyString :: split sep rest
      else match split sep rest with
           | [] => [String c EmptyString]
           | w :: ws => String c w :: ws
           end
  end.

(** [c in s] for a one-character [c]. *)
Fixpoint contains_char (c : ascii) (s : string) : bool :=
  match s with
  | EmptyString => false
  | String a rest => Ascii.eqb a c || contains_char c rest
  end.

(** [a, b = xs]: [inl msg] is the [ValueError(msg)] of a failed unpacking
    (the message without its counts). *)
Definition unpack2 (xs : list string) : (string + string * string)%type :=
  match xs with
  | [a; b] => inr (a, b)
  | [] | [_] => inl "not enough values to unpack"%string
  | _ => inl "too many values to unpack"%string
  end.

(** A field value of an untyped row, by what the schema's two coercions
    (to [str], to [float]) make of it.  Floats are finite. *)
Inductive value : Type :=
| VFloat (x : R)                 (* a float *)
| VInt (n : Z)                   (* an int *)
| VStr (s : string)              (* a str that does not read as a number *)
| VNumStr (s : string) (x : R)   (* a str that reads as the number x *)
| VNone.                         (* None, or any other object *)

(** A row: keyword arguments, field name to value. *)
Definition row : Type := list (string * value).

Fixpoint lookup (key : string) (r : row) : option value :=
  match r with
  | [] => None
  | (k, v) :: rest => if String.eqb k key then Some v else lookup key rest
  end.

End Py.

Notation "x <- m ;; k" := (Py.bind m (fun x => k))
  (at level 61, m at next level, right associativity).

(** ** [src/models.py] *)

Module Models.

Import Py.

Inductive OptionType : Type := CALL | PUT.

(** The enum's values: CALL = "Call", PUT = "Put". *)
Definition OptionType_value (o : OptionType) : string :=
  match o with
  | CALL => "Call"
  | PUT => "Put"
  end.

Record FXOptionTrade : Type := mkFXOptionTrade {
  trade_id : string;
  pair : string;
  spot_price : R;
  strike_price : R;
  notional : R;
  notional_currency : string;
  volatility : R;
  domestic_rate : R;
  foreign_rate : R;
  time_to_maturity : R;
  option_type : OptionType
}.

(** *** The schema's patterns *)

(** [A-Z] *)
Definition is_upper (c : ascii) : bool :=
  (65 <=? nat_of_ascii c)%nat && (nat_of_ascii c <=? 90)%nat.

(** [^[A-Z]{3}$] *)
Definition matches_ccy (s : string) : bool :=
  match s with
  | String a (String b (String c EmptyString)) =>
      is_upper a && is_upper b && is_upper c
  | _ => false
  end.

(** [^[A-Z]{3}/[A-Z]{3}$] *)
Definition matches_pair (s : string) : bool :=
  match s with
  | String a (String b (String c (String sl (String d (String e (String f EmptyString)))))) =>
      is_upper a && is_upper b && is_upper c && Ascii.eqb sl "/"
      && is_upper d && is_upper e && is_upper f
  | _ => false
  end.

(** *** Field validation *)

(** The kinds of error a field or the model validator reports. *)
Inductive error_type : Type :=
| missing
| string_type
| string_pattern_mismatch
| float_type
| float_parsing
| greater_than (bound : R)
| less_than_equal (bound : R)
| enum
| value_error (msg : string).

(** One entry of a [ValidationError]: where, and what.  The model
    validator's entry has the empty location. *)
Record ErrorDetails : Type := mkError { loc : string; err : error_type }.

(** A [ValidationError] carries the list of its entries. *)
Definition ValidationError : Type := list ErrorDetails.

(** The outcome of validating one field. *)
Definition field (A : Type) : Type := (error_type + A)%type.

(** [populate_by_name=True]: a field is read by its alias, else by its
    name. *)
Definition get_field (r : row) (alias name : string) : option value :=
  match lookup alias r with
  | Some v => Some v
  | None => lookup name r
  end.

(** A [str] field, with its [pattern] if it has one. *)
Definition str_field (pattern : option (string -> bool)) (v : option value)
  : field string :=
  match v with
  | None => inl missing
  | Some (VStr s) | Some (VNumStr s _) =>
      match pattern with
      | Some p => if p s then inr s else inl string_pattern_mismatch
      | None => inr s
      end
  | Some _ => inl string_type
  end.

(** The coercion of a value to a float. *)
Definition coerce_float (v : value) : field R :=
  match v with
  | VFloat x => inr x
  | VInt n => inr (IZR n)
  | VNumStr _ x => inr x
  | VStr _ => inl float_parsing
  | VNone => inl float_type
  end.

(** A [float] field with its [gt] and [le] bounds, if any. *)
Definition float_field (gt le : option R) (v : option value) : field R :=
  match v with
  | None => inl missing
  | Some v =>
      match coerce_float v with
      | inl e => inl e
      | inr x =>
          match gt with
          | Some b => if Rlt_dec b x then
                        match le with
                        | Some u => if Rle_dec x u then inr x
                                    else inl (less_than_equal u)
                        | None => inr x
                        end
                      else inl (greater_than b)
          | None =>
              match le with
              | Some u => if Rle_dec x u then inr x
                          else inl (less_than_equal u)
              | None => inr x
              end
          end
      end
  end.

(** An [OptionType] field. *)
Definition enum_field (v : option value) : field OptionType :=
  match v with
  | None => inl missing
  | Some (VStr s) | Some (VNumStr s _) =>
      if String.eqb s "Call" then inr CALL
      else if String.eqb s "Put" then inr PUT
      else inl enum
  | Some _ => inl enum
  end.

(** Field outcomes are combined so that every failing field is reported:
    the errors of the fields met so far, or the constructor applied so
    far. *)
Definition collected (A : Type) : Type := (ValidationError + A)%type.

Definition at_loc {A : Type} (l : string) (f : field A) : collected A :=
  match f with
  | inl e => inl [mkError l e]
  | inr a => inr a
  end.

Definition ap {A B : Type} (f : collected (A -> B)) (x : collected A)
  : collected B :=
  match f, x with
  | inr g, inr a => inr (g a)
  | inr _, inl ex => inl ex
  | inl ef, inr _ => inl ef
  | inl ef, inl ex => inl (ef ++ ex)
  end.

Notation "f <*> x" := (ap f x) (at level 50, left associativity).

(** The declared fields, in order. *)
Definition validate_fields (r : row) : collected FXOptionTrade :=
  inr mkFXOptionTrade
  <*> at_loc "TradeID" (str_field None (get_field r "TradeID" "trade_id"))
  <*> at_loc "Underlying"
        (str_field (Some matches_pair) (get_field r "Underlying" "pair"))
  <*> at_loc "Spot" (float_field (Some 0) None (get_field r "Spot" "spot_price"))
  <*> at_loc "Strike"
        (float_field (Some 0) None (get_field r "Strike" "strike_price"))
  <*> at_loc "Notional"
        (float_field (Some 0) None (get_field r "Notional" "notional"))
  <*> at_loc "NotionalCurrency"
        (str_field (Some matches_ccy)
           (get_field r "NotionalCurrency" "notional_currency"))
  <*> at_loc "Vol"
        (float_field (Some 0) (Some 5.0) (get_field r "Vol" "volatility"))
  <*> at_loc "RateDomestic"
        (float_field None None (get_field r "RateDomestic" "domestic_rate"))
  <*> at_loc "RateForeign"
        (float_field None None (get_field r "RateForeign" "foreign_rate"))
  <*> at_loc "Expiry"
        (float_field (Some 0) (Some 100.0)
           (get_field r "Expiry" "time_to_maturity"))
  <*> at_loc "OptionType"
        (enum_field (get_field r "OptionType" "option_type")).

(** The message of the cross-field check. *)
Definition currency_message (nc p base quote : string) : string :=
  ("Notional Currency '" ++ nc ++ "' is invalid for Pair '" ++ p ++ "'. "
   ++ "Must be either '" ++ base ++ "' or '" ++ quote ++ "'.")%string.

(** [check_currency_consistency]: [inl msg] is [raise ValueError(msg)]. *)
Definition check_currency_consistency (self : FXOptionTrade)
  : (string + FXOptionTrade)%type :=
  if negb (contains_char "/" (pair self)) then inr self
  else
    match unpack2 (split "/" (pair self)) with
    | inl msg => inl msg
    | inr (base, quote) =>
        if negb (String.eqb (notional_currency self) base
                 || String.eqb (notional_currency self) quote)
        then inl (currency_message (notional_currency self) (pair self) base quote)
        else inr self
    end.

(** The constructor called on a row's keyword arguments.  The fields come
    first, and the errors of all of them are raised together.  The model
    validator is declared with [mode='after']: it runs on the record built
    from the fields, hence only when every field passed, and its
    [ValueError] becomes the single entry of the [ValidationError]. *)
Definition construct (r : row) : (ValidationError + FXOptionTrade)%type :=
  match validate_fields r with
  | inl errors => inl errors
  | inr self =>
      match check_currency_consistency self with
      | inl msg => inl [mkError "" (value_error msg)]
      | inr self' => inr self'
      end
  end.

End Models.

(** ** [src/pricing.py] *)

Module BlackScholesFX.

Import Py Models Normal.

(** numpy's [log], [sqrt], [exp] and division raise nothing: outside their
    domains they return [nan] or an infinity, which the reals do not have.
    There the functions below take the value of the Standard Library's
    total [ln], [sqrt] and [/], and no property stated on the engine reads
    it.  The two divisions written with Python's own [/] on floats,
    [S / K] and [1.0 / S], raise [ZeroDivisionError] on a zero divisor, and
    the power written with Python's own operator on a float, [sigma ** 2],
    raises [OverflowError] when the square is out of range. *)

(** The dictionary [calculate_metrics] returns. *)
Record Metrics : Type := mkMetrics {
  PV_Native : R;
  Delta_Native : R;
  Vega_Native : R;
  Currency : string;
  PV_USD : R;
  Delta_USD : R;
  Vega_USD : R
}.

Definition _calculate_d1_d2 (S K T rd rf sigma : R) : result (R * R) :=
  let sqrt_T := sqrt T in
  q <- truediv S K ;;
  sigma_2 <- float_pow sigma 2 ;;
  let d1 := (ln q + (rd - rf + 0.5 * sigma_2) * T) / (sigma * sqrt_T) in
  let d2 := d1 - sigma * sqrt_T in
  ret (d1, d2).

(** Step 5's [try]/[except]: the two names after the unpacking of
    [trade.pair.split('/')].  When the unpacking raises, [base_ccy] stays
    unbound ([None]) and [quote_ccy] is "Unknown". *)
Definition split_pair (p : string) : option string * string :=
  match unpack2 (split "/" p) with
  | inr (base_ccy, quote_ccy) => (Some base_ccy, quote_ccy)
  | inl _ => (None, "Unknown"%string)
  end.

(** The conversion rate of step 5. *)
Definition fx_rate_to_usd (base_ccy : option string) (quote_ccy : string)
    (reporting_currency : string) (S : R) : result R :=
  if String.eqb quote_ccy reporting_currency then ret 1.0
  else
    match base_ccy with
    | None => inl (UnboundLocalError "base_ccy")
    | Some base =>
        if String.eqb base reporting_currency
           && negb (String.eqb quote_ccy reporting_currency)
        then truediv 1.0 S
        else ret 1.0
    end.

Definition calculate_metrics (trade : FXOptionTrade)
    (reporting_currency : string) : result Metrics :=
  (* 1. Extract inputs *)
  let S := spot_price trade in
  let K := strike_price trade in
  let T := time_to_maturity trade in
  let sigma := volatility trade in
  let rd := domestic_rate trade in
  let rf := foreign_rate trade in
  let notional := notional trade in
  (* 2. Garman-Kohlhagen calculations *)
  d <- _calculate_d1_d2 S K T rd rf sigma ;;
  let '(d1, d2) := d in
  let disc_d := exp (- rd * T) in
  let disc_f := exp (- rf * T) in
  (* 3. Unit metrics *)
  let '(price_unit, delta_unit) :=
    match option_type trade with
    | CALL =>
        (S * disc_f * norm_cdf d1 - K * disc_d * norm_cdf d2,
         disc_f * norm_cdf d1)
    | PUT =>
        (K * disc_d * norm_cdf (- d2) - S * disc_f * norm_cdf (- d1),
         disc_f * (norm_cdf d1 - 1))
    end in
  let vega_unit := S * disc_f * norm_pdf d1 * sqrt T in
  (* 4. Scale by notional *)
  let pv_native := price_unit * notional in
  let delta_native := delta_unit * notional in
  let vega_native := vega_unit * notional in
  (* 5. Currency normalization *)
  let '(base_ccy, quote_ccy) := split_pair (pair trade) in
  fx <- fx_rate_to_usd base_ccy quote_ccy reporting_currency S ;;
  ret {| PV_Native := pv_native;
         Delta_Native := delta_native;
         Vega_Native := vega_native;
         Currency := quote_ccy;
         PV_USD := pv_native * fx;
         Delta_USD := delta_native * fx;
         Vega_USD := vega_native * fx |}.

End BlackScholesFX.

(** ** [src/aggregator.py] *)

Module PortfolioAggregator.

(** One result dictionary of the driver: a row of the trade report. *)
Record ResultRow : Type := mkRow {
  TradeID : string;
  Pair : string;
  Type_ : string;
  Notional : R;
  Currency : string;
  PV_Native : R;
  Delta_Native : R;
  Vega_Native : R;
  PV_USD : R;
  Delta_USD : R;
  Vega_USD : R;
  Status : string
}.

(** A trade-report frame: the columns it has and its rows.  A column the
    frame does not list is not read. *)
Record DataFrame : Type := mkFrame {
  columns : list string;
  rows : list ResultRow
}.

(** The keys of the driver's result dictionaries. *)
Definition result_columns : list string :=
  ["TradeID"; "Pair"; "Type"; "Notional"; "Currency";
   "PV_Native"; "Delta_Native"; "Vega_Native";
   "PV_USD"; "Delta_USD"; "Vega_USD"; "Status"]%string.

(** [pd.DataFrame()] *)
Definition empty_frame : DataFrame := mkFrame [] [].

(** [df.empty]: no row or no column. *)
Definition empty (df : DataFrame) : bool :=
  match rows df, columns df with
  | [], _ => true
  | _, [] => true
  | _, _ => false
  end.

(** [name in df.columns] *)
Definition has_column (name : string) (df : DataFrame) : bool :=
  existsb (String.eqb name) (columns df).

(** [inl c]: the call raised [KeyError(c)]. *)
Definition result (A : Type) : Type := (string + A)%type.

(** [df[name]]: the check that the column is there. *)
Definition column (name : string) (df : DataFrame) : result unit :=
  if has_column name df then inr tt else inl name.

Definition prepare_trade_report (results : list ResultRow) : DataFrame :=
  match results with
  | [] => empty_frame
  | _ => mkFrame result_columns results
  end.

(** [df[df["Status"] == "Success"]] *)
Definition successful (df : DataFrame) : DataFrame :=
  mkFrame (columns df)
    (filter (fun r => String.eqb (Status r) "Success") (rows df)).

(** [series.sum()], as the exact sum of the cells.  The order in which
    pandas adds the cells and the rounding of each addition are not
    modelled, and the cells are finite numbers: a [nan] cell, which
    pandas would skip, is not a value of a row. *)
Definition sum (f : ResultRow -> R) (rs : list ResultRow) : R :=
  fold_right (fun r acc => f r + acc) 0 rs.

(** A cell of the [Value] column of the totals frame. *)
Inductive cell : Type :=
| Num (x : R)
| Count (n : nat)
| Text (s : string).

(** The totals frame: its ([Metric], [Value]) rows; [pd.DataFrame()] has
    none. *)
Definition Totals : Type := list (string * cell).

Definition no_valid_trades : Totals := [("Status", Text "No Valid Trades")]%string.

Definition calculate_portfolio_totals (df : DataFrame) : result Totals :=
  if empty df || negb (has_column "Status" df) then inr []
  else
    let valid_df := successful df in
    if empty valid_df then inr no_valid_trades
    else
      match column "PV_USD" valid_df, column "Delta_USD" valid_df,
            column "Vega_USD" valid_df with
      | inl c, _, _ => inl c
      | _, inl c, _ => inl c
      | _, _, inl c => inl c
      | inr _, inr _, inr _ =>
          let total_pv := sum PV_USD (rows valid_df) in
          let total_delta := sum Delta_USD (rows valid_df) in
          let total_vega := sum Vega_USD (rows valid_df) in
          inr [("Total PV (USD)", Num total_pv);
               ("Total Delta (USD)", Num total_delta);
               ("Total Vega (USD)", Num total_vega);
               ("Valid Trades", Count (List.length (rows valid_df)))]%string
      end.

(** One row of a grouped frame: the group's key and the three sums. *)
Record GroupRow : Type := mkGroup {
  key : string;
  group_PV_USD : R;
  group_Delta_USD : R;
  group_Vega_USD : R
}.

(** The keys of the groups: each key once, in increasing order. *)
Fixpoint insert_key (k : string) (ks : list string) : list string :=
  match ks with
  | [] => [k]
  | h :: t =>
      match String.compare k h with
      | Lt => k :: ks
      | Eq => ks
      | Gt => h :: insert_key k t
      end
  end.

Definition group_keys (by_ : ResultRow -> string) (rs : list ResultRow)
  : list string :=
  fold_right (fun r ks => insert_key (by_ r) ks) [] rs.

(** [frame.groupby(by)[["PV_USD", "Delta_USD", "Vega_USD"]].sum().reset_index()] *)
Definition groupby_sum (by_ : ResultRow -> string) (rs : list ResultRow)
  : list GroupRow :=
  map (fun k =>
         let members := filter (fun r => String.eqb (by_ r) k) rs in
         mkGroup k (sum PV_USD members) (sum Delta_USD members)
           (sum Vega_USD members))
      (group_keys by_ rs).

(** The body [group_risk_by_pair] and [group_risk_by_currency] share: the
    column grouped by, by its name and as a field of the rows. *)
Definition group_risk (name : string) (by_ : ResultRow -> string)
    (df : DataFrame) : result (list GroupRow) :=
  if empty df || negb (has_column name df) then inr []
  else
    match column "Status" df with
    | inl c => inl c
    | inr _ =>
        let valid_df := successful df in
        match column "PV_USD" valid_df, column "Delta_USD" valid_df,
              column "Vega_USD" valid_df with
        | inl c, _, _ => inl c
        | _, inl c, _ => inl c
        | _, _, inl c => inl c
        | inr _, inr _, inr _ => inr (groupby_sum by_ (rows valid_df))
        end
    end.

Definition group_risk_by_pair (df : DataFrame) : result (list GroupRow) :=
  group_risk "Pair" Pair df.

Definition group_risk_by_currency (df : DataFrame) : result (list GroupRow) :=
  group_risk "Currency" Currency df.

End PortfolioAggregator.

(** ** [main.py]: the processing loop and the report *)

Module Driver.

Import Py Models.

(** A column label of the frame read from the input file: the text of a
    header cell or, for a numeric header cell of a workbook, its number. *)
Inductive label : Type :=
| LStr (s : string)
| LNum (x : R).

(** [row.to_dict()]: the cells of a row of that frame under their labels. *)
Definition raw_row : Type := list (label * value).

(** The keyword arguments of the call of [FXOptionTrade] on the row's
    dictionary.  Keywords are strings: on a key that is not one the call
    raises [TypeError] ([None]) before the schema sees the row. *)
Fixpoint keywords (row_dict : raw_row) : option row :=
  match row_dict with
  | [] => Some []
  | (LStr k, v) :: rest =>
      match keywords rest with
      | Some kwargs => Some ((k, v) :: kwargs)
      | None => None
      end
  | (LNum _, _) :: _ => None
  end.

(** The text under the key [Error] of a rejected row, by the handler that
    wrote it; the rendering of the exception as a string is left out. *)
Inductive rejection : Type :=
| Validation (errors : ValidationError)   (* "Validation: ..." *)
| Pricing (msg : string)                  (* "Pricing: ..." *)
| SystemError (e : exn).                  (* "System Error: ..." *)

(** A rejected row: the row as read, and its [Error]. *)
Record Rejected : Type := mkRejected {
  rejected_row : raw_row;
  Error : rejection
}.

(** Step C of the loop: the success record of a priced trade. *)
Definition success_record (trade_obj : FXOptionTrade)
    (metrics : BlackScholesFX.Metrics) : PortfolioAggregator.ResultRow :=
  PortfolioAggregator.mkRow
    (trade_id trade_obj)
    (pair trade_obj)
    (OptionType_value (option_type trade_obj))
    (notional trade_obj)
    (BlackScholesFX.Currency metrics)
    (BlackScholesFX.PV_Native metrics)
    (BlackScholesFX.Delta_Native metrics)
    (BlackScholesFX.Vega_Native metrics)
    (BlackScholesFX.PV_USD metrics)
    (BlackScholesFX.Delta_USD metrics)
    (BlackScholesFX.Vega_USD metrics)
    "Success".

(** The body of the loop on one row: validation, then pricing with the
    reporting currency "USD"; the three handlers in their order.  The
    [TypeError] of a key that is not a string is neither a
    [ValidationError] nor a [ValueError]: the last handler takes it. *)
Definition process_row (row_dict : raw_row)
  : (PortfolioAggregator.ResultRow + Rejected)%type :=
  match keywords row_dict with
  | None => inr (mkRejected row_dict (SystemError TypeError))
  | Some kwargs =>
      match construct kwargs with
      | inl errors => inr (mkRejected row_dict (Validation errors))
      | inr trade_obj =>
          match BlackScholesFX.calculate_metrics trade_obj "USD" with
          | inr metrics => inl (success_record trade_obj metrics)
          | inl (ValueError msg) => inr (mkRejected row_dict (Pricing msg))
          | inl e => inr (mkRejected row_dict (SystemError e))
          end
      end
  end.

(** Step 3: the two lists the loop fills, each in the order of the rows. *)
Fixpoint process_rows (df_raw : list raw_row)
  : list PortfolioAggregator.ResultRow * list Rejected :=
  match df_raw with
  | [] => ([], [])
  | row_dict :: rest =>
      let '(valid_results, rejected_trades) := process_rows rest in
      match process_row row_dict with
      | inl record => (record :: valid_results, rejected_trades)
      | inr rejected => (valid_results, rejected :: rejected_trades)
      end
  end.

(** Step 4: the frames handed to the export. *)
Record Report : Type := mkReport {
  df_trades : PortfolioAggregator.DataFrame;
  df_summary : PortfolioAggregator.result PortfolioAggregator.Totals;
  df_by_pair : PortfolioAggregator.result (list PortfolioAggregator.GroupRow);
  df_by_ccy : PortfolioAggregator.result (list PortfolioAggregator.GroupRow);
  df_rejected : list Rejected
}.

(** Steps 3 and 4 of [run_risk_engine], on the rows read. *)
Definition run_risk_engine (df_raw : list raw_row) : Report :=
  let '(valid_results, rejected_trades) := process_rows df_raw in
  let df_trades := PortfolioAggregator.prepare_trade_report valid_results in
  mkReport df_trades
    (PortfolioAggregator.calculate_portfolio_totals df_trades)
    (PortfolioAggregator.group_risk_by_pair df_trades)
    (PortfolioAggregator.group_risk_by_currency df_trades)
    rejected_trades.

(** Step 5: the sheets written, in order. *)
Definition sheets (report : Report) : list string :=
  (if PortfolioAggregator.empty (df_trades report) then []
   else ["Trade Level"; "Portfolio Summary"; "Risk by Pair";
         "Risk by Currency"]%string)
  ++ (match df_rejected report with
      | [] => []
      | _ => ["Rejected Trades"%string]
      end).

End Driver.

(** * The vocabulary of the specification *)

(** ** Pairs and their legs *)

Module Legs.

(** The legs a pair names: base before the separator, quote after it. *)
Definition base_leg (p : string) : string := substring 0 3 p.
Definition quote_leg (p : string) : string := substring 4 3 p.

End Legs.

(** ** The schema's constraints and the entries of its errors *)

Module Schema.

Import Py Models Legs.

(** The constraints of the schema, on a record. *)
Definition valid_trade (t : FXOptionTrade) : Prop :=
  matches_pair (pair t) = true
  /\ 0 < spot_price t
  /\ 0 < strike_price t
  /\ 0 < notional t
  /\ matches_ccy (notional_currency t) = true
  /\ 0 < volatility t <= 5.0
  /\ 0 < time_to_maturity t <= 100.0
  /\ (notional_currency t = base_leg (pair t)
      \/ notional_currency t = quote_leg (pair t)).

(** The errors a combined outcome carries. *)
Definition errors_of {A : Type} (c : collected A) : ValidationError :=
  match c with
  | inl errors => errors
  | inr _ => []
  end.

(** The entry a field contributes: none when it passes. *)
Definition errors_at {A : Type} (l : string) (f : field A) : ValidationError :=
  errors_of (at_loc l f).

(** Every field's entry, in the order of the declarations. *)
Definition field_errors (r : row) : ValidationError :=
  errors_at "TradeID" (str_field None (get_field r "TradeID" "trade_id"))
  ++ errors_at "Underlying"
       (str_field (Some matches_pair) (get_field r "Underlying" "pair"))
  ++ errors_at "Spot" (float_field (Some 0) None (get_field r "Spot" "spot_price"))
  ++ errors_at "Strike"
       (float_field (Some 0) None (get_field r "Strike" "strike_price"))
  ++ errors_at "Notional"
       (float_field (Some 0) None (get_field r "Notional" "notional"))
  ++ errors_at "NotionalCurrency"
       (str_field (Some matches_ccy)
          (get_field r "NotionalCurrency" "notional_currency"))
  ++ errors_at "Vol"
       (float_field (Some 0) (Some 5.0) (get_field r "Vol" "volatility"))
  ++ errors_at "RateDomestic"
       (float_field None None (get_field r "RateDomestic" "domestic_rate"))
  ++ errors_at "RateForeign"
       (float_field None None (get_field r "RateForeign" "foreign_rate"))
  ++ errors_at "Expiry"
       (float_field (Some 0) (Some 100.0)
          (get_field r "Expiry" "time_to_maturity"))
  ++ errors_at "OptionType"
       (enum_field (get_field r "OptionType" "option_type")).

(** An outcome that failed carries at least one entry. *)
Definition reports {A : Type} (c : collected A) : Prop :=
  match c with
  | inl [] => False
  | _ => True
  end.

(** Two records that differ in the option kind only: the first a Call, the
    second a Put. *)
Definition matched_call_put (c p : FXOptionTrade) : Prop :=
  option_type c = CALL /\ option_type p = PUT
  /\ trade_id c = trade_id p /\ pair c = pair p
  /\ spot_price c = spot_price p /\ strike_price c = strike_price p
  /\ notional c = notional p /\ notional_currency c = notional_currency p
  /\ volatility c = volatility p /\ domestic_rate c = domestic_rate p
  /\ foreign_rate c = foreign_rate p
  /\ time_to_maturity c = time_to_maturity p.

Local Open Scope string_scope.

(** The row that spells a record out, field by field. *)
Definition to_row (t : FXOptionTrade) : row :=
  [("TradeID", VStr (trade_id t)); ("Underlying", VStr (pair t));
   ("Spot", VFloat (spot_price t)); ("Strike", VFloat (strike_price t));
   ("Notional", VFloat (notional t));
   ("NotionalCurrency", VStr (notional_currency t));
   ("Vol", VFloat (volatility t));
   ("RateDomestic", VFloat (domestic_rate t));
   ("RateForeign", VFloat (foreign_rate t));
   ("Expiry", VFloat (time_to_maturity t));
   ("OptionType", VStr (OptionType_value (option_type t)))].

(** [s in msg] *)
Definition occurs (s msg : string) : Prop :=
  exists before after, msg = before ++ s ++ after.

End Schema.

(** ** The Garman-Kohlhagen model and the normalization rule, as specified *)

Module GarmanKohlhagen.

Import Models Normal Legs.

Section Formulas.

Variables (S K T sigma r_d r_f : R).

Definition d1 : R :=
  (ln (S / K) + (r_d - r_f + 0.5 * (sigma * sigma)) * T) / (sigma * sqrt T).

Definition d2 : R := d1 - sigma * sqrt T.

Definition domestic_DF : R := exp (- (r_d * T)).

Definition foreign_DF : R := exp (- (r_f * T)).

Definition unit_price (kind : OptionType) : R :=
  match kind with
  | CALL => S * foreign_DF * norm_cdf d1 - K * domestic_DF * norm_cdf d2
  | PUT => K * domestic_DF * norm_cdf (- d2) - S * foreign_DF * norm_cdf (- d1)
  end.

Definition unit_delta (kind : OptionType) : R :=
  match kind with
  | CALL => foreign_DF * norm_cdf d1
  | PUT => foreign_DF * (norm_cdf d1 - 1)
  end.

Definition unit_vega : R := S * foreign_DF * norm_pdf d1 * sqrt T.

End Formulas.

(** The unit metrics of a trade record. *)
Definition price_of (t : FXOptionTrade) : R :=
  unit_price (spot_price t) (strike_price t) (time_to_maturity t)
    (volatility t) (domestic_rate t) (foreign_rate t) (option_type t).

Definition delta_of (t : FXOptionTrade) : R :=
  unit_delta (spot_price t) (strike_price t) (time_to_maturity t)
    (volatility t) (domestic_rate t) (foreign_rate t) (option_type t).

Definition vega_of (t : FXOptionTrade) : R :=
  unit_vega (spot_price t) (strike_price t) (time_to_maturity t)
    (volatility t) (domestic_rate t) (foreign_rate t).

(** The conversion factor of the normalization rule: 1 when the quote leg
    is the reporting currency, else 1 / spot when the base leg is, else 1. *)
Definition conversion_factor (p reporting : string) (spot : R) : R :=
  if String.eqb (quote_leg p) reporting then 1
  else if String.eqb (base_leg p) reporting then 1 / spot
  else 1.

End GarmanKohlhagen.

(** ** Aggregation, as specified *)

Module Aggregates.

Import PortfolioAggregator.
Local Open Scope string_scope.

(** A result tagged "Success". *)
Definition is_success (r : ResultRow) : bool := String.eqb (Status r) "Success".

(** The sum of one field over the successful results: a result that is not
    successful is skipped. *)
Fixpoint sum_success (f : ResultRow -> R) (rs : list ResultRow) : R :=
  match rs with
  | [] => 0
  | r :: rest => if is_success r then f r + sum_success f rest
                 else sum_success f rest
  end.

(** The number of successful results. *)
Fixpoint count_success (rs : list ResultRow) : nat :=
  match rs with
  | [] => 0
  | r :: rest => if is_success r then S (count_success rest)
                 else count_success rest
  end.

(** The sum of one field over the successful results of one group. *)
Fixpoint sum_group (by_ : ResultRow -> string) (k : string)
    (f : ResultRow -> R) (rs : list ResultRow) : R :=
  match rs with
  | [] => 0
  | r :: rest => if is_success r && String.eqb (by_ r) k
                 then f r + sum_group by_ k f rest
                 else sum_group by_ k f rest
  end.

(** The rows of the total: the three sums and the count. *)
Definition totals_rows (pv delta vega : R) (n : nat) : Totals :=
  [("Total PV (USD)", Num pv); ("Total Delta (USD)", Num delta);
   ("Total Vega (USD)", Num vega); ("Valid Trades", Count n)].

(** A grouped summary of the results [rs] by [by_]: one row per key met
    among the successful results, no key twice, each row holding the sums
    of its group. *)
Definition grouped_by (by_ : ResultRow -> string) (rs : list ResultRow)
    (gs : list GroupRow) : Prop :=
  (forall k, In k (map key gs)
             <-> exists r, In r rs /\ is_success r = true /\ by_ r = k)
  /\ NoDup (map key gs)
  /\ (forall g, In g gs ->
        group_PV_USD g = sum_group by_ (key g) PV_USD rs
        /\ group_Delta_USD g = sum_group by_ (key g) Delta_USD rs
        /\ group_Vega_USD g = sum_group by_ (key g) Vega_USD rs).

(** The frame has each of the named columns. *)
Definition has_columns (names : list string) (df : DataFrame) : Prop :=
  forall name, In name names -> has_column name df = true.

(** The order of the keys of a grouped frame. *)
Definition key_lt (a b : string) : Prop := String.compare a b = Lt.

End Aggregates.

(** ** Rows and records, for the properties of the schema *)

Module RowForms.

Import Py Models Schema.

Local Open Scope string_scope.

(** The declared fields: alias and name. *)
Definition schema_fields : list (string * string) :=
  [("TradeID", "trade_id"); ("Underlying", "pair"); ("Spot", "spot_price");
   ("Strike", "strike_price"); ("Notional", "notional");
   ("NotionalCurrency", "notional_currency"); ("Vol", "volatility");
   ("RateDomestic", "domestic_rate"); ("RateForeign", "foreign_rate");
   ("Expiry", "time_to_maturity"); ("OptionType", "option_type")].

(** A key no field is read by. *)
Definition unread_key (k : string) : Prop :=
  forall alias name, In (alias, name) schema_fields -> k <> alias /\ k <> name.

(** The row that spells a record out under the names of the fields. *)
Definition to_row_by_name (t : FXOptionTrade) : row :=
  [("trade_id", VStr (trade_id t)); ("pair", VStr (pair t));
   ("spot_price", VFloat (spot_price t));
   ("strike_price", VFloat (strike_price t));
   ("notional", VFloat (notional t));
   ("notional_currency", VStr (notional_currency t));
   ("volatility", VFloat (volatility t));
   ("domestic_rate", VFloat (domestic_rate t));
   ("foreign_rate", VFloat (foreign_rate t));
   ("time_to_maturity", VFloat (time_to_maturity t));
   ("option_type", VStr (OptionType_value (option_type t)))].

(** [d[key] = v] on a row. *)
Fixpoint set_item (key : string) (v : value) (r : row) : row :=
  match r with
  | [] => [(key, v)]
  | (k, w) :: rest =>
      if String.eqb k key then (key, v) :: rest
      else (k, w) :: set_item key v rest
  end.

(** The record with another volatility, maturity or notional. *)
Definition with_volatility (x : R) (t : FXOptionTrade) : FXOptionTrade :=
  mkFXOptionTrade (trade_id t) (pair t) (spot_price t) (strike_price t)
    (notional t) (notional_currency t) x (domestic_rate t) (foreign_rate t)
    (time_to_maturity t) (option_type t).

Definition with_time_to_maturity (x : R) (t : FXOptionTrade) : FXOptionTrade :=
  mkFXOptionTrade (trade_id t) (pair t) (spot_price t) (strike_price t)
    (notional t) (notional_currency t) (volatility t) (domestic_rate t)
    (foreign_rate t) x (option_type t).

Definition with_notional (x : R) (t : FXOptionTrade) : FXOptionTrade :=
  mkFXOptionTrade (trade_id t) (pair t) (spot_price t) (strike_price t)
    x (notional_currency t) (volatility t) (domestic_rate t)
    (foreign_rate t) (time_to_maturity t) (option_type t).

End RowForms.

(** ** Rows of the input file, characters of a pair *)

Module DriverForms.

Import Py Models Driver.

(** The row passes validation: the call of [FXOptionTrade] on its
    dictionary returns a record. *)
Definition constructs (r : raw_row) : bool :=
  match keywords r with
  | Some kwargs =>
      match construct kwargs with
      | inr _ => true
      | inl _ => false
      end
  | None => false
  end.

(** A row whose labels are all strings. *)
Definition labelled (r : row) : raw_row :=
  map (fun kv => (LStr (fst kv), snd kv)) r.

(** The number of occurrences of a character in a string. *)
Fixpoint count_char (c : ascii) (s : string) : nat :=
  match s with
  | EmptyString => 0%nat
  | String a rest =>
      if Ascii.eqb a c then S (count_char c rest) else count_char c rest
  end.

End DriverForms.

(** * Sample inputs *)

(** ** Records: the inputs of [tests/test_pricing.py], and four of our own *)

Module Samples.

Import Models Schema.

Local Open Scope string_scope.

(** [EURUSD_DATA] of [tests/test_pricing.py], as a record. *)
Definition eurusd_call : FXOptionTrade :=
  mkFXOptionTrade "TEST_EUR" "EUR/USD" 1.10 1.10 1000000 "USD"
    0.20 0.05 0.02 1.0 CALL.

Definition eurusd_put : FXOptionTrade :=
  mkFXOptionTrade "TEST_EUR" "EUR/USD" 1.10 1.10 1000000 "USD"
    0.20 0.05 0.02 1.0 PUT.

(** [JPY_DATA] of [tests/test_pricing.py], as a record. *)
Definition usdjpy_call : FXOptionTrade :=
  mkFXOptionTrade "TEST_JPY" "USD/JPY" 100.0 100.0 100000000 "JPY"
    0.10 0.01 0.05 0.5 CALL.

(** A cross pair: neither leg is the reporting currency USD. *)
Definition eurgbp_put : FXOptionTrade :=
  mkFXOptionTrade "TEST_GBP" "EUR/GBP" 0.85 0.80 1000000 "EUR"
    0.10 0.04 0.03 2.0 PUT.


(** A record with no time left, as a caller that bypasses the schema could
    hand to the engine. *)
Definition expired_call : FXOptionTrade :=
  mkFXOptionTrade "EXPIRED" "EUR/USD" 1.10 1.10 1000000 "USD"
    0.20 0.05 0.02 0 CALL.

(** A record with no volatility, as a caller that bypasses the schema
    could hand to the engine. *)
Definition zero_vol_put : FXOptionTrade :=
  mkFXOptionTrade "ZERO_VOL" "USD/JPY" 100.0 100.0 100000000 "JPY"
    0 0.01 0.05 0.5 PUT.


(** A record with a volatility whose square no float holds, as a caller
    that bypasses the schema could hand to the engine. *)
Definition huge_vol_call : FXOptionTrade :=
  mkFXOptionTrade "HUGE_VOL" "EUR/USD" 1.10 1.10 1000000 "USD"
    1e200 0.05 0.02 1.0 CALL.

Ltac valid_sample :=
  unfold valid_trade; simpl;
  repeat match goal with
         | |- _ /\ _ => split
         end;
  first [ reflexivity | lra | left; reflexivity | right; reflexivity ].

End Samples.

(** ** Rows: the inputs of [tests/test_models.py] *)

Module Rows.

Import Py Models Schema.

Local Open Scope string_scope.

(** The baseline row of [tests/test_models.py], with the four entries the
    tests vary. *)
Definition data (underlying notional_ccy : string) (vol expiry : value) : row :=
  [("TradeID", VStr "T1"); ("Underlying", VStr underlying);
   ("Spot", VFloat 1.10); ("Strike", VFloat 1.12); ("Notional", VInt 1000000);
   ("NotionalCurrency", VStr notional_ccy); ("Vol", vol);
   ("RateDomestic", VFloat 0.02); ("RateForeign", VFloat 0.01);
   ("Expiry", expiry); ("OptionType", VStr "Call")].

Definition VALID_DATA : row := data "EUR/USD" "USD" (VFloat 0.20) (VFloat 0.5).

(** [test_cross_field_currency_mismatch] *)
Definition gbp_row : row := data "EUR/USD" "GBP" (VFloat 0.20) (VFloat 0.5).

(** The mismatch together with a volatility out of range. *)
Definition gbp_zero_vol_row : row := data "EUR/USD" "GBP" (VFloat 0.0) (VFloat 0.5).

(** The mismatch together with an expired maturity. *)
Definition gbp_expired_row : row := data "EUR/USD" "GBP" (VFloat 0.20) (VFloat 0.0).

(** Two fields out of range at once. *)
Definition two_errors_row : row := data "EURUSD" "USD" (VFloat 5.1) (VFloat 0.5).

End Rows.

(** ** Frames: the inputs of [tests/test_aggregator.py] *)

Module Frames.

Import PortfolioAggregator.
Local Open Scope string_scope.

(** A result row with the entries the aggregator reads. *)
Definition result_row (id pair_ ccy status : string) (pv delta vega : R)
  : ResultRow :=
  mkRow id pair_ "Call" 1000000 ccy pv delta vega pv delta vega status.

(** The frame of [test_calculate_portfolio_totals]. *)
Definition totals_frame : DataFrame :=
  mkFrame result_columns
    [result_row "T1" "EUR/USD" "USD" "Success" 100.0 50.0 10.0;
     result_row "T2" "EUR/USD" "USD" "Success" 200.0 25.0 20.0;
     result_row "T3" "USD/JPY" "JPY" "Failed" 999.0 0.0 0.0].

(** The frame of [test_group_risk_by_currency]. *)
Definition currency_frame : DataFrame :=
  mkFrame result_columns
    [result_row "T1" "EUR/USD" "USD" "Success" 100.0 50.0 0.0;
     result_row "T2" "USD/JPY" "JPY" "Success" 50.0 10.0 0.0;
     result_row "T3" "GBP/USD" "USD" "Success" 100.0 50.0 0.0].

(** A frame whose only row is not tagged "Success". *)
Definition failed_only_frame : DataFrame :=
  mkFrame result_columns
    [result_row "T3" "USD/JPY" "JPY" "Failed" 999.0 0.0 0.0].

End Frames.

(** * Properties *)

(** ** The standard normal law *)

Module NormalFacts.

Import Normal.


Lemma half_ratio_bounds (x : R) :
  0 <= x -> 0 <= gauss_int 0 x / (2 * half_mass) < / 2.
Proof.
  intros Hx.
  pose proof half_mass_pos as Hm.
  pose proof (gauss_int_lt_half_mass x Hx) as Hlt.
  pose proof (gauss_int_nonneg 0 x (Rle_refl 0) Hx) as Hge.
  split.
  - apply Rmult_le_pos; [exact Hge |].
    left. apply Rinv_0_lt_compat. lra.
  - apply Rmult_lt_reg_r with (2 * half_mass); [lra |].
    unfold Rdiv. rewrite Rmult_assoc, Rinv_l by lra. lra.
Qed.

Lemma norm_cdf_0 : norm_cdf 0 = / 2.
Proof.
  unfold norm_cdf. destruct (Rle_dec 0 0) as [_ | H]; [| lra].
  rewrite gauss_int_refl. unfold Rdiv. ring.
Qed.

(** Symmetry of the law: Phi(-x) = 1 - Phi(x). *)
Lemma norm_cdf_opp (x : R) : norm_cdf (- x) = 1 - norm_cdf x.
Proof.
  destruct (Req_dec x 0) as [-> | Hne].
  - rewrite Ropp_0, norm_cdf_0. lra.
  - unfold norm_cdf.
    destruct (Rle_dec 0 (- x)) as [Hn | Hn], (Rle_dec 0 x) as [Hp | Hp];
      try lra.
    rewrite Ropp_involutive. lra.
Qed.


(** It is a distribution function: it grows with x, and comes as close to
    1 as one wants. *)
Lemma norm_cdf_increasing (x y : R) : x <= y -> norm_cdf x <= norm_cdf y.
Proof.
  intros Hxy. pose proof half_mass_pos as Hm.
  assert (Hdiv : forall a b, a <= b -> a / (2 * half_mass) <= b / (2 * half_mass)).
  { intros a b Hab. apply Rmult_le_compat_r; [| exact Hab].
    left. apply Rinv_0_lt_compat. lra. }
  unfold norm_cdf.
  destruct (Rle_dec 0 x) as [Hx | Hx], (Rle_dec 0 y) as [Hy | Hy]; try lra.
  - pose proof (Hdiv _ _ (gauss_int_mono x y Hx Hxy)). lra.
  - pose proof (half_ratio_bounds (- x)). pose proof (half_ratio_bounds y). lra.
  - assert (H0 : 0 <= - y) by lra. assert (H1 : - y <= - x) by lra.
    pose proof (Hdiv _ _ (gauss_int_mono (- y) (- x) H0 H1)). lra.
Qed.

Lemma norm_cdf_sup (eps : R) : 0 < eps -> exists x, 1 - eps < norm_cdf x.
Proof.
  intros He. pose proof half_mass_pos as Hm.
  assert (Hnot : ~ is_upper_bound half_masses (half_mass - 2 * half_mass * eps)).
  { intros Hub. pose proof (proj2 half_mass_lub _ Hub). nra. }
  assert (Hex : exists x, 0 <= x /\ half_mass - 2 * half_mass * eps < gauss_int 0 x).
  { apply Classical_Prop.NNPP. intros Hno. apply Hnot.
    intros y (x & Hx & ->). apply Rnot_lt_le. intros Hlt. apply Hno.
    exists x. split; assumption. }
  destruct Hex as (x & Hx & Hgt). exists x.
  unfold norm_cdf. destruct (Rle_dec 0 x) as [_ | Hn]; [| contradiction].
  assert (Hq : / 2 - eps < gauss_int 0 x / (2 * half_mass)).
  { apply Rmult_lt_reg_r with (2 * half_mass); [lra |].
    unfold Rdiv. rewrite Rmult_assoc, Rinv_l by lra. lra. }
  lra.
Qed.

End NormalFacts.

(** ** The range of the floats *)

Module FloatFacts.

Import Py.

Lemma float_max_Z : float_max = IZR ((2 ^ 53 - 1) * 2 ^ 971).
Proof.
  unfold float_max. rewrite mult_IZR, minus_IZR, !pow_IZR. reflexivity.
Qed.

Lemma float_max_ge_25 : 25 <= float_max.
Proof. rewrite float_max_Z. apply IZR_le. discriminate. Qed.


Lemma float_max_lt_1e400 : float_max < 1e200 ^ 2.
Proof.
  rewrite float_max_Z. simpl pow. rewrite <- !mult_IZR. apply IZR_lt.
  reflexivity.
Qed.

(** A square within the range is returned. *)
Lemma float_pow_2_in_range (x : R) :
  x ^ 2 <= float_max -> float_pow x 2 = inr (x ^ 2).
Proof.
  intros H. unfold float_pow.
  rewrite Rabs_right by (apply Rle_ge, pow2_ge_0).
  destruct (Rlt_dec float_max (x ^ 2)) as [Hlt | _]; [lra | reflexivity].
Qed.

(** A square out of the range raises. *)
Lemma float_pow_2_overflow (x : R) :
  float_max < x ^ 2 -> float_pow x 2 = inl OverflowError.
Proof.
  intros H. unfold float_pow.
  rewrite Rabs_right by (apply Rle_ge, pow2_ge_0).
  destruct (Rlt_dec float_max (x ^ 2)) as [_ | Hge]; [reflexivity | lra].
Qed.

(** The volatilities of the schema are far inside the range. *)
Lemma float_pow_2_schema (x : R) :
  0 < x <= 5.0 -> float_pow x 2 = inr (x ^ 2).
Proof.
  intros H. apply float_pow_2_in_range.
  pose proof float_max_ge_25. nra.
Qed.


End FloatFacts.

(** ** Well-formed pairs *)

Module LegsFacts.

Import Py Models Legs.

Lemma upper_not_slash (c : ascii) : is_upper c = true -> Ascii.eqb c "/" = false.
Proof.
  destruct c as [[] [] [] [] [] [] [] []]; intros H; try reflexivity;
    vm_compute in H; discriminate H.
Qed.

Lemma matches_pair_shape (p : string) :
  matches_pair p = true ->
  exists a b c d e f,
    p = String a (String b (String c (String "/" (String d (String e (String f EmptyString))))))
    /\ is_upper a = true /\ is_upper b = true /\ is_upper c = true
    /\ is_upper d = true /\ is_upper e = true /\ is_upper f = true.
Proof.
  destruct p as [| a [| b [| c [| sl [| d [| e [| f [| ? ?]]]]]]]];
    simpl; try discriminate.
  intros H.
  repeat match goal with
         | H : _ && _ = true |- _ => apply andb_true_iff in H; destruct H
         end.
  match goal with H : Ascii.eqb sl _ = true |- _ => apply Ascii.eqb_eq in H; subst sl end.
  exists a, b, c, d, e, f. repeat split; assumption.
Qed.

Lemma split_well_formed (p : string) :
  matches_pair p = true -> split "/" p = [base_leg p; quote_leg p].
Proof.
  intros H. destruct (matches_pair_shape p H)
    as (a & b & c & d & e & f & -> & Ha & Hb & Hc & Hd & He & Hf).
  unfold base_leg, quote_leg. simpl.
  rewrite (upper_not_slash a Ha), (upper_not_slash b Hb), (upper_not_slash c Hc),
    (upper_not_slash d Hd), (upper_not_slash e He), (upper_not_slash f Hf).
  reflexivity.
Qed.

Lemma contains_slash_well_formed (p : string) :
  matches_pair p = true -> contains_char "/" p = true.
Proof.
  intros H. destruct (matches_pair_shape p H)
    as (a & b & c & d & e & f & -> & _).
  simpl. rewrite !orb_true_r. reflexivity.
Qed.

Lemma legs_are_currencies (p : string) :
  matches_pair p = true ->
  matches_ccy (base_leg p) = true /\ matches_ccy (quote_leg p) = true.
Proof.
  intros H. destruct (matches_pair_shape p H)
    as (a & b & c & d & e & f & -> & Ha & Hb & Hc & Hd & He & Hf).
  unfold base_leg, quote_leg. simpl.
  rewrite Ha, Hb, Hc, Hd, He, Hf. split; reflexivity.
Qed.

End LegsFacts.

(** ** Trade Record construction *)

Module Construction.

Import Py Models Legs Schema LegsFacts Rows.

(** Case analysis on the comparisons of reals a definition branches on. *)
Ltac case_R :=
  match goal with
  | |- context [Rlt_dec ?a ?b] => destruct (Rlt_dec a b)
  | |- context [Rle_dec ?a ?b] => destruct (Rle_dec a b)
  | |- context [Req_dec_T ?a ?b] => destruct (Req_dec_T a b)
  | H : context [Rlt_dec ?a ?b] |- _ => destruct (Rlt_dec a b)
  | H : context [Rle_dec ?a ?b] |- _ => destruct (Rle_dec a b)
  | H : context [Req_dec_T ?a ?b] |- _ => destruct (Req_dec_T a b)
  end.

Lemma reports_at_loc {A : Type} (l : string) (f : field A) : reports (at_loc l f).
Proof. destruct f; exact I. Qed.

Lemma reports_ap {A B : Type} (f : collected (A -> B)) (x : collected A) :
  reports f -> reports x -> reports (f <*> x).
Proof.
  destruct f as [[| e es] | g], x as [[| e' es'] | a]; simpl; tauto.
Qed.

Lemma errors_of_ap {A B : Type} (f : collected (A -> B)) (x : collected A) :
  errors_of (f <*> x) = errors_of f ++ errors_of x.
Proof.
  destruct f as [ef | g], x as [ex | a]; simpl;
    rewrite ?app_nil_r; reflexivity.
Qed.

Lemma ap_inr {A B : Type} (f : collected (A -> B)) (x : collected A) (b : B) :
  f <*> x = inr b -> exists g a, f = inr g /\ x = inr a /\ b = g a.
Proof.
  destruct f as [ef | g], x as [ex | a]; simpl; intros H; try discriminate.
  inversion H. exists g, a. auto.
Qed.

Lemma at_loc_inr {A : Type} (l : string) (f : field A) (a : A) :
  at_loc l f = inr a -> f = inr a.
Proof. destruct f; simpl; intros H; [discriminate | now inversion H]. Qed.

Lemma reports_errors {A : Type} (c : collected A) :
  reports c -> errors_of c = [] -> exists a, c = inr a.
Proof.
  destruct c as [[| e es] | a]; simpl; intros Hr He;
    [contradiction | discriminate | now exists a].
Qed.

(** The fields' outcome and the list of the fields' entries agree. *)
Lemma validate_fields_errors (r : row) :
  errors_of (validate_fields r) = field_errors r.
Proof.
  unfold validate_fields, field_errors, errors_at.
  rewrite !errors_of_ap. simpl. rewrite <- !app_assoc. reflexivity.
Qed.

Lemma validate_fields_reports (r : row) : reports (validate_fields r).
Proof.
  unfold validate_fields.
  repeat (apply reports_ap; [| apply reports_at_loc]).
  exact I.
Qed.

Lemma str_field_pattern (p : string -> bool) (v : option value) (s : string) :
  str_field (Some p) v = inr s -> p s = true.
Proof.
  destruct v as [[x | n | s' | s' x |] |]; simpl; try discriminate;
    destruct (p s') eqn:E; intros H; inversion H; subst; assumption.
Qed.

Lemma float_field_gt (b : R) (le : option R) (v : option value) (x : R) :
  float_field (Some b) le v = inr x -> b < x.
Proof.
  unfold float_field. destruct v as [v |]; [| discriminate].
  destruct (coerce_float v) as [e | y]; [discriminate |].
  destruct (Rlt_dec b y) as [Hlt | Hge]; [| discriminate].
  destruct le as [u |].
  - destruct (Rle_dec y u); intros H; inversion H; subst; assumption.
  - intros H; inversion H; subst; assumption.
Qed.

Lemma float_field_le (gt : option R) (u : R) (v : option value) (x : R) :
  float_field gt (Some u) v = inr x -> x <= u.
Proof.
  unfold float_field. destruct v as [v |]; [| discriminate].
  destruct (coerce_float v) as [e | y]; [discriminate |].
  destruct gt as [b |].
  - destruct (Rlt_dec b y); [| discriminate].
    destruct (Rle_dec y u); intros H; inversion H; subst; assumption.
  - destruct (Rle_dec y u); intros H; inversion H; subst; assumption.
Qed.

(** A [str] field yields the string it was given, pattern or not. *)
Lemma str_field_same (p : string -> bool) (v : option value) (s s' : string) :
  str_field None v = inr s -> str_field (Some p) v = inr s' -> s' = s.
Proof.
  destruct v as [[x | n | w | w x |] |]; simpl; try discriminate;
    destruct (p w); intros H1 H2; inversion H1; inversion H2; congruence.
Qed.

(** The model validator lets a record through unchanged, and only when
    its notional currency is a leg of a well-formed pair. *)
Lemma check_currency_consistency_inr (t t' : FXOptionTrade) :
  matches_pair (pair t) = true ->
  check_currency_consistency t = inr t' ->
  t' = t /\ (notional_currency t = base_leg (pair t)
             \/ notional_currency t = quote_leg (pair t)).
Proof.
  intros Hp. unfold check_currency_consistency.
  rewrite (contains_slash_well_formed _ Hp), (split_well_formed _ Hp). simpl.
  destruct (String.eqb_spec (notional_currency t) (base_leg (pair t))) as [Hb | Hb];
    simpl.
  - intros H; inversion H; subst; auto.
  - destruct (String.eqb_spec (notional_currency t) (quote_leg (pair t))) as [Hq | Hq];
      simpl; intros H; inversion H; subst; auto.
Qed.

Lemma check_currency_consistency_inl (t : FXOptionTrade) :
  matches_pair (pair t) = true ->
  notional_currency t <> base_leg (pair t) ->
  notional_currency t <> quote_leg (pair t) ->
  check_currency_consistency t
  = inl (currency_message (notional_currency t) (pair t)
           (base_leg (pair t)) (quote_leg (pair t))).
Proof.
  intros Hp Hb Hq. unfold check_currency_consistency.
  rewrite (contains_slash_well_formed _ Hp), (split_well_formed _ Hp). simpl.
  apply String.eqb_neq in Hb, Hq. rewrite Hb, Hq. reflexivity.
Qed.

Lemma check_currency_consistency_ok (t : FXOptionTrade) :
  matches_pair (pair t) = true ->
  notional_currency t = base_leg (pair t)
  \/ notional_currency t = quote_leg (pair t) ->
  check_currency_consistency t = inr t.
Proof.
  intros Hp Hleg. unfold check_currency_consistency.
  rewrite (contains_slash_well_formed _ Hp), (split_well_formed _ Hp). simpl.
  destruct Hleg as [-> | ->]; rewrite String.eqb_refl; simpl;
    rewrite ?orb_true_r; reflexivity.
Qed.

(** The fields of a record the field checks let through. *)
Lemma validate_fields_sound (r : row) (t : FXOptionTrade) :
  validate_fields r = inr t ->
  matches_pair (pair t) = true
  /\ 0 < spot_price t /\ 0 < strike_price t /\ 0 < notional t
  /\ matches_ccy (notional_currency t) = true
  /\ 0 < volatility t <= 5.0
  /\ 0 < time_to_maturity t <= 100.0.
Proof.
  unfold validate_fields. intros H.
  repeat match goal with
         | H : _ <*> _ = inr _ |- _ =>
             apply ap_inr in H; destruct H as (? & ? & H & ? & ?)
         end.
  repeat match goal with
         | H : at_loc _ _ = inr _ |- _ => apply at_loc_inr in H
         end.
  inversion H; subst; simpl.
  repeat match goal with
         | |- _ /\ _ => split
         end;
    first [ eapply str_field_pattern; eassumption
          | eapply float_field_gt; eassumption
          | eapply float_field_le; eassumption ].
Qed.

Local Open Scope string_scope.

(** The fields of the record the field checks build are the outcomes of
    the checks on the pair and on the notional currency. *)
Lemma validate_fields_strings (r : row) (t : FXOptionTrade) :
  validate_fields r = inr t ->
  str_field (Some matches_pair) (get_field r "Underlying" "pair") = inr (pair t)
  /\ str_field (Some matches_ccy)
       (get_field r "NotionalCurrency" "notional_currency")
     = inr (notional_currency t).
Proof.
  unfold validate_fields. intros H.
  repeat match goal with
         | H : _ <*> _ = inr _ |- _ =>
             apply ap_inr in H; destruct H as (? & ? & H & ? & ?)
         end.
  repeat match goal with
         | H : at_loc _ _ = inr _ |- _ => apply at_loc_inr in H
         end.
  inversion H; subst; simpl. split; assumption.
Qed.

(** Construction yields only records that meet every constraint. *)
Lemma construct_sound (r : row) (t : FXOptionTrade) :
  construct r = inr t -> valid_trade t.
Proof.
  unfold construct. destruct (validate_fields r) as [errs | self] eqn:Ef;
    [discriminate |].
  destruct (check_currency_consistency self) as [msg | self'] eqn:Ec;
    [discriminate |].
  intros H; inversion H; subst self'.
  pose proof (validate_fields_sound r self Ef) as Hs.
  destruct Hs as (Hp & Hs).
  destruct (check_currency_consistency_inr self t Hp Ec) as [-> Hleg].
  unfold valid_trade. tauto.
Qed.

(** Every record that meets the constraints is constructed from a row:
    the valid records are exactly the records construction yields. *)
Lemma construct_complete (t : FXOptionTrade) :
  valid_trade t -> construct (to_row t) = inr t.
Proof.
  intros Hv.
  assert (Hf : validate_fields (to_row t) = inr t).
  { destruct t as [id p S K N nc vol rd rf T kind].
    destruct Hv as (Hp & HS & HK & HN & Hc & Hvol & HT & _). simpl in *.
    unfold to_row, validate_fields, get_field, float_field, str_field,
      enum_field, coerce_float.
    cbn [lookup String.eqb Ascii.eqb Bool.eqb trade_id pair spot_price
           strike_price notional notional_currency volatility domestic_rate
           foreign_rate time_to_maturity option_type].
    rewrite Hp, Hc.
    repeat (case_R; try lra).
    destruct kind; reflexivity. }
  unfold construct. rewrite Hf.
  destruct Hv as (Hp & _ & _ & _ & _ & _ & _ & Hleg).
  now rewrite (check_currency_consistency_ok t Hp Hleg).
Qed.

Lemma valid_trade_iff_constructed (t : FXOptionTrade) :
  valid_trade t <-> exists r, construct r = inr t.
Proof.
  split.
  - intros Hv. exists (to_row t). now apply construct_complete.
  - intros (r & Hr). now apply (construct_sound r).
Qed.

Lemma append_assoc (a b c : string) : (a ++ b) ++ c = a ++ (b ++ c).
Proof. induction a as [| x a IH]; simpl; [reflexivity | now rewrite IH]. Qed.

(** The message of the cross-field check names the notional currency and
    the two legs. *)
Lemma currency_message_names (nc p base quote : string) :
  occurs nc (currency_message nc p base quote)
  /\ occurs base (currency_message nc p base quote)
  /\ occurs quote (currency_message nc p base quote).
Proof.
  unfold currency_message, occurs. repeat split.
  - exists "Notional Currency '". eexists. reflexivity.
  - exists ("Notional Currency '" ++ nc ++ "' is invalid for Pair '" ++ p
            ++ "'. " ++ "Must be either '"), ("' or '" ++ quote ++ "'.").
    rewrite !append_assoc. reflexivity.
  - exists ("Notional Currency '" ++ nc ++ "' is invalid for Pair '" ++ p
            ++ "'. " ++ "Must be either '" ++ base ++ "' or '"), "'.".
    rewrite !append_assoc. reflexivity.
Qed.

(** Evaluation of the field checks on a row given in full. *)
Ltac run_fields :=
  unfold validate_fields, field_errors, errors_at, get_field, float_field,
    str_field, enum_field, coerce_float;
  cbn [lookup String.eqb Ascii.eqb Bool.eqb];
  repeat (case_R; try lra);
  repeat match goal with
         | |- context [matches_pair ?s] =>
             let b := eval vm_compute in (matches_pair s) in
             change (matches_pair s) with b
         | |- context [matches_ccy ?s] =>
             let b := eval vm_compute in (matches_ccy s) in
             change (matches_ccy s) with b
         end;
  cbn [at_loc ap errors_of app].

Example VALID_DATA_fields :
  validate_fields VALID_DATA
  = inr (mkFXOptionTrade "T1" "EUR/USD" 1.10 1.12 1000000 "USD"
           0.20 0.02 0.01 0.5 CALL).
Proof. unfold VALID_DATA, data. run_fields. reflexivity. Qed.

Example VALID_DATA_constructs :
  construct VALID_DATA
  = inr (mkFXOptionTrade "T1" "EUR/USD" 1.10 1.12 1000000 "USD"
           0.20 0.02 0.01 0.5 CALL).
Proof. unfold construct. rewrite VALID_DATA_fields. reflexivity. Qed.

Example two_errors_reported :
  construct two_errors_row
  = inl [mkError "Underlying" string_pattern_mismatch;
         mkError "Vol" (less_than_equal 5.0)].
Proof. unfold construct, two_errors_row, data. run_fields. reflexivity. Qed.

End Construction.

(** ** Pricing a valid record *)

Module Pricing.

Import Py Models Normal NormalFacts FloatFacts Legs Schema LegsFacts
  BlackScholesFX Samples.
Module GK := GarmanKohlhagen.

Lemma split_pair_well_formed (p : string) :
  matches_pair p = true -> split_pair p = (Some (base_leg p), quote_leg p).
Proof.
  intros H. unfold split_pair. rewrite (split_well_formed p H). reflexivity.
Qed.

Lemma truediv_defined (x y : R) : y <> 0 -> truediv x y = inr (x / y).
Proof.
  intros H. unfold truediv. destruct (Req_dec_T y 0); [contradiction | reflexivity].
Qed.

Lemma fx_rate_well_formed (p reporting : string) (S : R) :
  S <> 0 ->
  fx_rate_to_usd (Some (base_leg p)) (quote_leg p) reporting S
  = inr (GK.conversion_factor p reporting S).
Proof.
  intros HS. unfold fx_rate_to_usd, GK.conversion_factor.
  destruct (String.eqb (quote_leg p) reporting); simpl.
  - unfold ret. f_equal. lra.
  - destruct (String.eqb (base_leg p) reporting); simpl.
    + rewrite (truediv_defined _ _ HS). f_equal. lra.
    + unfold ret. f_equal. lra.
Qed.

(** On a record that meets the schema's constraints the engine returns,
    and what it returns is the model's unit metrics scaled by notional and
    then by the conversion factor. *)
Lemma calculate_metrics_valid (t : FXOptionTrade) (reporting : string) :
  valid_trade t ->
  calculate_metrics t reporting
  = inr {| PV_Native := GK.price_of t * notional t;
           Delta_Native := GK.delta_of t * notional t;
           Vega_Native := GK.vega_of t * notional t;
           Currency := quote_leg (pair t);
           PV_USD := GK.price_of t * notional t
                     * GK.conversion_factor (pair t) reporting (spot_price t);
           Delta_USD := GK.delta_of t * notional t
                        * GK.conversion_factor (pair t) reporting (spot_price t);
           Vega_USD := GK.vega_of t * notional t
                       * GK.conversion_factor (pair t) reporting (spot_price t) |}.
Proof.
  intros (Hp & HS & HK & HN & Hc & Hv & HT & Hleg).
  unfold calculate_metrics, _calculate_d1_d2.
  rewrite truediv_defined by lra. cbn [bind ret].
  rewrite (float_pow_2_schema _ Hv). cbn [bind ret].
  rewrite (split_pair_well_formed _ Hp).
  rewrite fx_rate_well_formed by lra. cbn [bind ret].
  unfold GK.price_of, GK.delta_of, GK.vega_of, GK.unit_price, GK.unit_delta,
    GK.unit_vega, GK.d1, GK.d2, GK.domestic_DF, GK.foreign_DF.
  replace (- domestic_rate t * time_to_maturity t)
    with (- (domestic_rate t * time_to_maturity t)) by ring.
  replace (- foreign_rate t * time_to_maturity t)
    with (- (foreign_rate t * time_to_maturity t)) by ring.
  replace (volatility t ^ 2) with (volatility t * volatility t) by ring.
  destruct (option_type t); reflexivity.
Qed.

(** The engine has no check of its own: whatever the maturity and the
    sign of the volatility, it returns as soon as the pair splits in two,
    the two Python divisions are defined and the square of the volatility
    is within the range of the floats. *)
Lemma calculate_metrics_returns (t : FXOptionTrade) (reporting : string) :
  matches_pair (pair t) = true ->
  spot_price t <> 0 -> strike_price t <> 0 ->
  volatility t ^ 2 <= float_max ->
  exists m, calculate_metrics t reporting = inr m.
Proof.
  intros Hp HS HK Hv. unfold calculate_metrics, _calculate_d1_d2.
  rewrite (truediv_defined _ _ HK). cbn [bind ret].
  rewrite (float_pow_2_in_range _ Hv). cbn [bind ret].
  rewrite (split_pair_well_formed _ Hp).
  rewrite (fx_rate_well_formed _ _ _ HS). cbn [bind ret].
  destruct (option_type t); eexists; reflexivity.
Qed.

(** No path of the engine raises [ValueError]. *)
Lemma calculate_metrics_no_value_error
    (t : FXOptionTrade) (reporting msg : string) :
  calculate_metrics t reporting <> inl (ValueError msg).
Proof.
  unfold calculate_metrics, _calculate_d1_d2, truediv, float_pow.
  destruct (Req_dec_T (strike_price t) 0); cbn [bind ret]; [discriminate |].
  destruct (Rlt_dec float_max (Rabs (volatility t ^ 2))); cbn [bind ret];
    [discriminate |].
  destruct (split_pair (pair t)) as [[base |] quote];
    unfold fx_rate_to_usd, truediv, ret;
    destruct (String.eqb quote reporting);
    try destruct (String.eqb base reporting);
    try destruct (Req_dec_T (spot_price t) 0);
    destruct (option_type t); cbn; discriminate.
Qed.

(** The schema protects the engine: a constructed record is priced. *)
Lemma constructed_trade_is_priced
    (r : row) (t : FXOptionTrade) (reporting : string) :
  construct r = inr t -> exists m, calculate_metrics t reporting = inr m.
Proof.
  intros H. apply Construction.construct_sound in H.
  eexists. apply (calculate_metrics_valid t reporting H).
Qed.

Lemma matched_call_put_valid (c p : FXOptionTrade) :
  matched_call_put c p -> valid_trade c -> valid_trade p.
Proof.
  unfold matched_call_put, valid_trade.
  intros (_ & _ & _ & <- & <- & <- & <- & <- & <- & _ & _ & <-). tauto.
Qed.



Lemma eurusd_call_valid : valid_trade eurusd_call.
Proof. valid_sample. Qed.

Lemma eurusd_put_valid : valid_trade eurusd_put.
Proof. valid_sample. Qed.

Lemma usdjpy_call_valid : valid_trade usdjpy_call.
Proof. valid_sample. Qed.

Lemma eurgbp_put_valid : valid_trade eurgbp_put.
Proof. valid_sample. Qed.









(** Past the range of the floats the square of the volatility stops the
    engine, whatever the rest of the record (the strike apart). *)
Lemma calculate_metrics_overflow (t : FXOptionTrade) (reporting : string) :
  strike_price t <> 0 -> float_max < volatility t ^ 2 ->
  calculate_metrics t reporting = inl OverflowError.
Proof.
  intros HK Hv. unfold calculate_metrics, _calculate_d1_d2.
  rewrite (truediv_defined _ _ HK). cbn [bind ret].
  rewrite (float_pow_2_overflow _ Hv). reflexivity.
Qed.

Example huge_vol_call_overflows :
  calculate_metrics huge_vol_call "USD" = inl OverflowError.
Proof.
  apply calculate_metrics_overflow; simpl; [lra | apply float_max_lt_1e400].
Qed.

(** The three branches of the rule on the sample records. *)
Example eurusd_factor :
  GK.conversion_factor (pair eurusd_call) "USD" (spot_price eurusd_call) = 1.
Proof. reflexivity. Qed.

Example usdjpy_factor :
  GK.conversion_factor (pair usdjpy_call) "USD" (spot_price usdjpy_call)
  = 1 / 100.0.
Proof. reflexivity. Qed.

Example eurgbp_factor :
  GK.conversion_factor (pair eurgbp_put) "USD" (spot_price eurgbp_put) = 1.
Proof. reflexivity. Qed.

End Pricing.

(** ** Filtering, summing and grouping *)

Module Grouping.

Import PortfolioAggregator Aggregates Frames.
Local Open Scope string_scope.

Lemma ascii_compare_refl (a : ascii) : Ascii.compare a a = Eq.
Proof. unfold Ascii.compare. apply N.compare_refl. Qed.

Lemma ascii_compare_lt_trans (a b c : ascii) :
  Ascii.compare a b = Lt -> Ascii.compare b c = Lt -> Ascii.compare a c = Lt.
Proof.
  unfold Ascii.compare. rewrite !N.compare_lt_iff. apply N.lt_trans.
Qed.

Lemma compare_refl (s : string) : String.compare s s = Eq.
Proof.
  induction s as [| a s IH]; simpl; [reflexivity |].
  now rewrite ascii_compare_refl.
Qed.

Lemma compare_lt_trans (a b c : string) :
  String.compare a b = Lt -> String.compare b c = Lt -> String.compare a c = Lt.
Proof.
  revert b c. induction a as [| x a IH]; intros [| y b] [| z c]; simpl;
    try discriminate; try reflexivity.
  destruct (Ascii.compare x y) eqn:Exy; try discriminate;
    destruct (Ascii.compare y z) eqn:Eyz; try discriminate.
  - apply Ascii.compare_eq_iff in Exy, Eyz. subst.
    rewrite ascii_compare_refl. apply IH.
  - apply Ascii.compare_eq_iff in Exy. subst. now rewrite Eyz.
  - apply Ascii.compare_eq_iff in Eyz. subst. now rewrite Exy.
  - now rewrite (ascii_compare_lt_trans x y z Exy Eyz).
Qed.

Lemma compare_gt_lt (a b : string) :
  String.compare a b = Gt -> key_lt b a.
Proof.
  intros H. unfold key_lt. rewrite String.compare_antisym, H. reflexivity.
Qed.

Lemma insert_key_In (k x : string) (ks : list string) :
  In x (insert_key k ks) <-> x = k \/ In x ks.
Proof.
  induction ks as [| h t IH]; simpl.
  - intuition.
  - destruct (String.compare k h) eqn:E; simpl.
    + apply String.compare_eq_iff in E. subst h. intuition.
    + intuition.
    + rewrite IH. intuition.
Qed.

Lemma insert_key_sorted (k : string) (ks : list string) :
  StronglySorted key_lt ks -> StronglySorted key_lt (insert_key k ks).
Proof.
  induction ks as [| h t IH]; simpl; intros Hs.
  - constructor; constructor.
  - inversion Hs as [| ? ? Ht Hall]; subst.
    destruct (String.compare k h) eqn:E.
    + exact Hs.
    + constructor; [exact Hs |].
      constructor; [exact E |].
      rewrite Forall_forall in *. intros y Hy.
      apply (compare_lt_trans k h y E). now apply Hall.
    + constructor; [now apply IH |].
      rewrite Forall_forall in *. intros y Hy.
      apply insert_key_In in Hy. destruct Hy as [-> | Hy].
      * now apply compare_gt_lt.
      * now apply Hall.
Qed.

Lemma group_keys_In (by_ : ResultRow -> string) (rs : list ResultRow) (k : string) :
  In k (group_keys by_ rs) <-> exists r, In r rs /\ by_ r = k.
Proof.
  unfold group_keys. induction rs as [| r rest IH]; simpl.
  - split; [contradiction | intros (r & [] & _)].
  - rewrite insert_key_In, IH. split.
    + intros [-> | (r' & Hin & Hk)]; [exists r; auto | exists r'; auto].
    + intros (r' & [<- | Hin] & Hk); [left; now symmetry | right; exists r'; auto].
Qed.

Lemma group_keys_sorted (by_ : ResultRow -> string) (rs : list ResultRow) :
  StronglySorted key_lt (group_keys by_ rs).
Proof.
  unfold group_keys. induction rs as [| r rest IH]; simpl.
  - constructor.
  - now apply insert_key_sorted.
Qed.

Lemma sorted_NoDup (ks : list string) : StronglySorted key_lt ks -> NoDup ks.
Proof.
  induction 1 as [| h t Ht IH Hall]; constructor; [| exact IH].
  intros Hin. rewrite Forall_forall in Hall. specialize (Hall h Hin).
  unfold key_lt in Hall. rewrite compare_refl in Hall. discriminate.
Qed.

Lemma sum_successful (f : ResultRow -> R) (rs : list ResultRow) :
  sum f (filter (fun r => String.eqb (Status r) "Success") rs)
  = sum_success f rs.
Proof.
  induction rs as [| r rest IH]; simpl; [reflexivity |].
  unfold is_success. destruct (String.eqb (Status r) "Success"); simpl;
    now rewrite IH.
Qed.

Lemma length_successful (rs : list ResultRow) :
  List.length (filter (fun r => String.eqb (Status r) "Success") rs)
  = count_success rs.
Proof.
  induction rs as [| r rest IH]; simpl; [reflexivity |].
  unfold is_success. destruct (String.eqb (Status r) "Success"); simpl;
    now rewrite IH.
Qed.

Lemma sum_group_successful (by_ : ResultRow -> string) (k : string)
    (f : ResultRow -> R) (rs : list ResultRow) :
  sum f (filter (fun r => String.eqb (by_ r) k)
           (filter (fun r => String.eqb (Status r) "Success") rs))
  = sum_group by_ k f rs.
Proof.
  induction rs as [| r rest IH]; simpl; [reflexivity |].
  unfold is_success. destruct (String.eqb (Status r) "Success"); simpl;
    [destruct (String.eqb (by_ r) k); simpl |]; now rewrite IH.
Qed.

(** The grouped frame of the successful rows is a grouped summary. *)
Lemma groupby_sum_grouped (by_ : ResultRow -> string) (rs : list ResultRow) :
  grouped_by by_ rs
    (groupby_sum by_ (filter (fun r => String.eqb (Status r) "Success") rs)).
Proof.
  unfold grouped_by, groupby_sum.
  set (ok := filter _ rs).
  assert (Hkeys : forall gs : list string,
             map key (map (fun k =>
               let members := filter (fun r => String.eqb (by_ r) k) ok in
               mkGroup k (sum PV_USD members) (sum Delta_USD members)
                 (sum Vega_USD members)) gs) = gs).
  { intros gs. rewrite map_map. simpl. apply map_id. }
  rewrite Hkeys. split; [| split].
  - intros k. rewrite group_keys_In. unfold ok. split.
    + intros (r & Hin & Hk). apply filter_In in Hin. destruct Hin as [Hin Hs].
      exists r. auto.
    + intros (r & Hin & Hs & Hk). exists r. split; [| exact Hk].
      apply filter_In. auto.
  - apply sorted_NoDup, group_keys_sorted.
  - intros g Hg. apply in_map_iff in Hg. destruct Hg as (k & <- & _).
    simpl. unfold ok. rewrite !sum_group_successful. auto.
Qed.

Lemma successful_columns (df : DataFrame) (name : string) :
  has_column name (successful df) = has_column name df.
Proof. reflexivity. Qed.

Lemma empty_no_rows (df : DataFrame) : rows df = [] -> empty df = true.
Proof. unfold empty. now intros ->. Qed.

Lemma empty_false (df : DataFrame) (name : string) :
  rows df <> [] -> has_column name df = true -> empty df = false.
Proof.
  unfold empty, has_column. destruct (rows df); [contradiction |].
  destruct (columns df); [discriminate | reflexivity].
Qed.

Lemma no_success_filter (rs : list ResultRow) :
  (forall r, In r rs -> is_success r = false) ->
  filter (fun r => String.eqb (Status r) "Success") rs = [].
Proof.
  induction rs as [| r rest IH]; simpl; intros H; [reflexivity |].
  pose proof (H r (or_introl eq_refl)) as Hr. unfold is_success in Hr.
  rewrite Hr. apply IH. intros r' Hin. apply H. now right.
Qed.

Lemma some_success_filter (rs : list ResultRow) :
  (exists r, In r rs /\ is_success r = true) ->
  filter (fun r => String.eqb (Status r) "Success") rs <> [].
Proof.
  intros (r & Hin & Hs) Hnil.
  assert (In r (filter (fun r => String.eqb (Status r) "Success") rs)) as H
    by (apply filter_In; auto).
  rewrite Hnil in H. contradiction.
Qed.

(** The totals of a frame with a successful row. *)
Lemma calculate_portfolio_totals_sums (df : DataFrame) :
  has_columns ["Status"; "PV_USD"; "Delta_USD"; "Vega_USD"] df ->
  (exists r, In r (rows df) /\ is_success r = true) ->
  calculate_portfolio_totals df
  = inr (totals_rows (sum_success PV_USD (rows df))
           (sum_success Delta_USD (rows df))
           (sum_success Vega_USD (rows df))
           (count_success (rows df))).
Proof.
  intros Hc Hs.
  assert (Hst : has_column "Status" df = true) by (apply Hc; simpl; auto).
  assert (Hpv : has_column "PV_USD" df = true) by (apply Hc; simpl; auto).
  assert (Hde : has_column "Delta_USD" df = true) by (apply Hc; simpl; auto).
  assert (Hve : has_column "Vega_USD" df = true) by (apply Hc; simpl; auto).
  assert (Hr : rows df <> []).
  { destruct Hs as (r & Hin & _). intros Hnil. now rewrite Hnil in Hin. }
  unfold calculate_portfolio_totals.
  rewrite (empty_false df _ Hr Hst), Hst. simpl.
  pose proof (some_success_filter _ Hs) as Hne.
  rewrite (empty_false (successful df) "Status" Hne Hst).
  unfold column. rewrite !successful_columns, Hpv, Hde, Hve.
  unfold successful, totals_rows. simpl.
  now rewrite !sum_successful, length_successful.
Qed.

(** The grouped frame of a frame with rows. *)
Lemma group_risk_grouped (name : string) (by_ : ResultRow -> string)
    (df : DataFrame) :
  has_columns ["Status"; "PV_USD"; "Delta_USD"; "Vega_USD"] df ->
  has_column name df = true ->
  exists gs, group_risk name by_ df = inr gs /\ grouped_by by_ (rows df) gs.
Proof.
  intros Hc Hn.
  assert (Hst : has_column "Status" df = true) by (apply Hc; simpl; auto).
  assert (Hpv : has_column "PV_USD" df = true) by (apply Hc; simpl; auto).
  assert (Hde : has_column "Delta_USD" df = true) by (apply Hc; simpl; auto).
  assert (Hve : has_column "Vega_USD" df = true) by (apply Hc; simpl; auto).
  unfold group_risk. rewrite Hn. simpl. rewrite orb_false_r.
  destruct (empty df) eqn:He.
  - exists []. split; [reflexivity |].
    assert (Hr : rows df = []).
    { unfold empty, has_column in *. destruct (rows df); [reflexivity |].
      destruct (columns df); [discriminate Hn | discriminate He]. }
    rewrite Hr. pose proof (groupby_sum_grouped by_ []) as H. exact H.
  - unfold column. rewrite Hst, !successful_columns, Hpv, Hde, Hve.
    eexists. split; [reflexivity |]. apply groupby_sum_grouped.
Qed.

Lemma result_columns_present :
  forall rs, has_columns ["Status"; "PV_USD"; "Delta_USD"; "Vega_USD"]
               (mkFrame result_columns rs).
Proof.
  intros rs name Hin. simpl in Hin.
  destruct Hin as [<- | [<- | [<- | [<- | []]]]]; reflexivity.
Qed.

(** [test_calculate_portfolio_totals]: total PV 300 over two valid trades;
    the row tagged "Failed" is left out. *)
Example totals_frame_totals :
  calculate_portfolio_totals totals_frame = inr (totals_rows 300 75 30 2).
Proof.
  rewrite calculate_portfolio_totals_sums.
  - unfold totals_rows. cbn. repeat f_equal; lra.
  - apply result_columns_present.
  - eexists. split; [left; reflexivity | reflexivity].
Qed.

(** [test_group_risk_by_currency]: 200 for USD, 50 for JPY. *)
Example currency_frame_groups :
  group_risk_by_currency currency_frame
  = inr [mkGroup "JPY" 50 10 0; mkGroup "USD" 200 100 0].
Proof.
  unfold group_risk_by_currency, group_risk. cbn.
  repeat f_equal; lra.
Qed.

End Grouping.

(** ** Rows and the values read from them *)

Module RowFacts.

Import Py Models Legs Schema LegsFacts Construction RowForms.

Local Open Scope string_scope.

Lemma lookup_set_item (key k : string) (v : value) (r : row) :
  lookup k (set_item key v r)
  = if String.eqb key k then Some v else lookup k r.
Proof.
  induction r as [| [k' w] rest IH]; simpl.
  - reflexivity.
  - destruct (String.eqb_spec k' key) as [-> | Hne]; simpl.
    + destruct (String.eqb key k); reflexivity.
    + rewrite IH. destruct (String.eqb_spec key k) as [<- | Hk].
      * apply String.eqb_neq in Hne. now rewrite Hne.
      * reflexivity.
Qed.

Lemma lookup_skip (key k : string) (v : value) (r1 r2 : row) :
  k <> key -> lookup key (r1 ++ (k, v) :: r2)%list = lookup key (r1 ++ r2)%list.
Proof.
  intros Hne. induction r1 as [| [k' w] rest IH]; simpl.
  - apply String.eqb_neq in Hne. now rewrite Hne.
  - now rewrite IH.
Qed.

(** The outcome of construction is a function of the eleven values read. *)
Lemma construct_ext (r r' : row) :
  (forall alias name, In (alias, name) schema_fields ->
     get_field r alias name = get_field r' alias name) ->
  construct r = construct r'.
Proof.
  intros H. unfold construct, validate_fields.
  rewrite !(H _ _) by (simpl; tauto). reflexivity.
Qed.

End RowFacts.

(** * The claims *)

(** ** Claims on Trade Record construction *)

Module ValidationClaims.

Import Py Models Legs Schema LegsFacts Construction Rows.
Local Open Scope string_scope.

(** C6, as stated, fails: the pair is well formed, the notional currency
    GBP is neither of its legs, and the volatility is out of range; the
    error lists the volatility alone, the cross-field check was not
    evaluated. *)
Lemma cross_field_check_waits_for_fields :
  get_field gbp_zero_vol_row "Underlying" "pair" = Some (VStr "EUR/USD")
  /\ matches_pair "EUR/USD" = true
  /\ get_field gbp_zero_vol_row "NotionalCurrency" "notional_currency"
     = Some (VStr "GBP")
  /\ "GBP" <> base_leg "EUR/USD" /\ "GBP" <> quote_leg "EUR/USD"
  /\ construct gbp_zero_vol_row = inl [mkError "Vol" (greater_than 0)].
Proof.
  repeat apply conj; try reflexivity; try discriminate.
  unfold construct, gbp_zero_vol_row, data. run_fields. reflexivity.
Qed.

(** C6, amended. Construction yields a record that meets every constraint,
    or fails with a non-empty list of errors and no record.  When some
    field check fails, the list is the list of the entries of all the
    failing fields, and the cross-field check is not evaluated; the
    cross-field check is evaluated when every field check passes, and its
    failure is then the single entry of the list. *)
Theorem construct_reports_all_field_errors (r : row) :
  match construct r with
  | inr t => valid_trade t /\ field_errors r = []
  | inl errors =>
      errors <> []
      /\ ((field_errors r <> [] /\ errors = field_errors r)
          \/ (field_errors r = []
              /\ exists t msg,
                   validate_fields r = inr t
                   /\ check_currency_consistency t = inl msg
                   /\ errors = [mkError "" (value_error msg)]))
  end.
Proof.
  destruct (construct r) as [errors | t] eqn:Ec.
  - unfold construct in Ec.
    pose proof (validate_fields_errors r) as He.
    pose proof (validate_fields_reports r) as Hr.
    destruct (validate_fields r) as [errs | self] eqn:Ef.
    + inversion Ec; subst errs. simpl in He, Hr.
      destruct errors as [| e es]; [contradiction |].
      split; [discriminate |]. left. rewrite <- He. split; [discriminate | reflexivity].
    + simpl in He.
      destruct (check_currency_consistency self) as [msg | self'] eqn:Ecc;
        [| discriminate].
      inversion Ec; subst errors. split; [discriminate |].
      right. split; [now symmetry |]. exists self, msg. auto.
  - split; [now apply (construct_sound r) |].
    unfold construct in Ec.
    pose proof (validate_fields_errors r) as He.
    destruct (validate_fields r) as [errs | self]; [discriminate |].
    now symmetry.
Qed.

(** C7, as stated, fails: the pair is well formed and the notional
    currency GBP is neither of its legs, yet the error of the failed
    construction is the maturity's, and no message names a currency. *)
Lemma mismatch_reported_without_message :
  get_field gbp_expired_row "Underlying" "pair" = Some (VStr "EUR/USD")
  /\ matches_pair "EUR/USD" = true
  /\ get_field gbp_expired_row "NotionalCurrency" "notional_currency"
     = Some (VStr "GBP")
  /\ "GBP" <> base_leg "EUR/USD" /\ "GBP" <> quote_leg "EUR/USD"
  /\ construct gbp_expired_row = inl [mkError "Expiry" (greater_than 0)].
Proof.
  repeat apply conj; try reflexivity; try discriminate.
  unfold construct, gbp_expired_row, data. run_fields. reflexivity.
Qed.

(** C7, amended. (a) When every field check passes and the notional
    currency is neither leg of the pair, construction fails with the
    single cross-field error, whose message names the notional currency
    and both legs.  (b) Whenever the pair of a row is well formed and its
    notional currency is neither leg, construction fails.  (c) Every
    constructed record has its notional currency among the two legs. *)
Theorem cross_field_rejection :
  (forall r t,
      validate_fields r = inr t ->
      notional_currency t <> base_leg (pair t) ->
      notional_currency t <> quote_leg (pair t) ->
      exists msg,
        construct r = inl [mkError "" (value_error msg)]
        /\ msg = currency_message (notional_currency t) (pair t)
                   (base_leg (pair t)) (quote_leg (pair t))
        /\ occurs (notional_currency t) msg
        /\ occurs (base_leg (pair t)) msg
        /\ occurs (quote_leg (pair t)) msg)
  /\ (forall r p nc,
         str_field (Some matches_pair) (get_field r "Underlying" "pair") = inr p ->
         str_field None (get_field r "NotionalCurrency" "notional_currency")
         = inr nc ->
         nc <> base_leg p -> nc <> quote_leg p ->
         exists errors, construct r = inl errors)
  /\ (forall r t,
         construct r = inr t ->
         notional_currency t = base_leg (pair t)
         \/ notional_currency t = quote_leg (pair t)).
Proof.
  assert (Hc : forall r t,
             construct r = inr t ->
             notional_currency t = base_leg (pair t)
             \/ notional_currency t = quote_leg (pair t)).
  { intros r t H. apply construct_sound in H. unfold valid_trade in H. tauto. }
  split; [| split; [| exact Hc]].
  - intros r t Hf Hb Hq.
    pose proof (validate_fields_sound r t Hf) as (Hp & _).
    eexists. split; [| split; [reflexivity |]].
    + unfold construct. rewrite Hf.
      rewrite (check_currency_consistency_inl t Hp Hb Hq). reflexivity.
    + apply currency_message_names.
  - intros r p nc Hpair Hnc Hb Hq.
    destruct (construct r) as [errors | t] eqn:Ec; [now exists errors |].
    exfalso.
    pose proof (Hc r t Ec) as Hleg.
    unfold construct in Ec.
    destruct (validate_fields r) as [errs | self] eqn:Ef; [discriminate |].
    destruct (check_currency_consistency self) as [msg | self'] eqn:Ecc;
      [discriminate |].
    injection Ec as Heq. subst t.
    pose proof (validate_fields_sound r self Ef) as (Hp & _).
    destruct (check_currency_consistency_inr self self' Hp Ecc) as [-> _].
    destruct (validate_fields_strings r self Ef) as [Hpt Hnt].
    rewrite Hpair in Hpt. inversion Hpt; subst p.
    pose proof (str_field_same _ _ _ _ Hnc Hnt) as Hsame. subst nc.
    destruct Hleg; contradiction.
Qed.

(** The specification's example: pair "EUR/USD" with notional currency
    "GBP" fails with a message naming "GBP", "EUR" and "USD". *)
Lemma cross_field_rejection_witness :
  exists msg,
    construct gbp_row = inl [mkError "" (value_error msg)]
    /\ msg = "Notional Currency 'GBP' is invalid for Pair 'EUR/USD'. Must be either 'EUR' or 'USD'."
    /\ occurs "GBP" msg /\ occurs "EUR" msg /\ occurs "USD" msg.
Proof.
  apply (proj1 cross_field_rejection gbp_row
           (mkFXOptionTrade "T1" "EUR/USD" 1.10 1.12 1000000 "GBP"
              0.20 0.02 0.01 0.5 CALL)).
  - unfold gbp_row, data. run_fields. reflexivity.
  - discriminate.
  - discriminate.
Defined.

End ValidationClaims.

(** ** Claims on the pricing engine *)

Module PricingClaims.

Import Py Models Normal NormalFacts Legs Schema Construction BlackScholesFX
  Pricing Samples.
Module GK := GarmanKohlhagen.

(** C1. On every valid record the engine returns, and its native price,
    delta and vega are the Garman-Kohlhagen unit metrics of the
    specification (d1, d2, the two discount factors, the Call and Put
    prices and deltas, the common vega) scaled by the notional. *)
Theorem calculate_metrics_garman_kohlhagen
    (t : FXOptionTrade) (reporting : string) :
  valid_trade t ->
  exists m,
    calculate_metrics t reporting = inr m
    /\ PV_Native m = notional t * GK.price_of t
    /\ Delta_Native m = notional t * GK.delta_of t
    /\ Vega_Native m = notional t * GK.vega_of t.
Proof.
  intros Hv. eexists. split; [apply (calculate_metrics_valid t reporting Hv) |].
  simpl. repeat split; ring.
Qed.

Lemma calculate_metrics_garman_kohlhagen_witness :
  exists m,
    calculate_metrics eurusd_call "USD" = inr m
    /\ PV_Native m = notional eurusd_call * GK.price_of eurusd_call
    /\ Delta_Native m = notional eurusd_call * GK.delta_of eurusd_call
    /\ Vega_Native m = notional eurusd_call * GK.vega_of eurusd_call.
Proof.
  apply (calculate_metrics_garman_kohlhagen eurusd_call "USD").
  valid_sample.
Defined.

(** C2. The normalized metrics are the native ones times a conversion
    factor: 1 when the quote leg is the reporting currency (normalized
    and native then coincide), 1 / spot when the base leg is and the quote
    leg is not (normalized = native / spot), and 1 when neither leg is. *)
Theorem normalization_factor_cases (t : FXOptionTrade) (reporting : string) :
  valid_trade t ->
  exists m f,
    calculate_metrics t reporting = inr m
    /\ PV_USD m = PV_Native m * f
    /\ Delta_USD m = Delta_Native m * f
    /\ Vega_USD m = Vega_Native m * f
    /\ (quote_leg (pair t) = reporting ->
        f = 1 /\ PV_USD m = PV_Native m /\ Delta_USD m = Delta_Native m
        /\ Vega_USD m = Vega_Native m)
    /\ (base_leg (pair t) = reporting -> quote_leg (pair t) <> reporting ->
        f = 1 / spot_price t /\ PV_USD m = PV_Native m / spot_price t
        /\ Delta_USD m = Delta_Native m / spot_price t
        /\ Vega_USD m = Vega_Native m / spot_price t)
    /\ (base_leg (pair t) <> reporting -> quote_leg (pair t) <> reporting ->
        f = 1).
Proof.
  intros Hv. eexists.
  exists (GK.conversion_factor (pair t) reporting (spot_price t)).
  split; [apply (calculate_metrics_valid t reporting Hv) |].
  simpl. unfold GK.conversion_factor.
  repeat apply conj; try reflexivity.
  - intros Hq. apply String.eqb_eq in Hq. rewrite Hq.
    repeat split; ring.
  - intros Hb Hq. apply String.eqb_eq in Hb. apply String.eqb_neq in Hq.
    rewrite Hq, Hb. unfold Rdiv. repeat split; ring.
  - intros Hb Hq. apply String.eqb_neq in Hb. apply String.eqb_neq in Hq.
    now rewrite Hq, Hb.
Qed.

Lemma normalization_factor_cases_witness :
  exists m f,
    calculate_metrics usdjpy_call "USD" = inr m
    /\ PV_USD m = PV_Native m * f
    /\ Delta_USD m = Delta_Native m * f
    /\ Vega_USD m = Vega_Native m * f
    /\ (quote_leg (pair usdjpy_call) = "USD"%string ->
        f = 1 /\ PV_USD m = PV_Native m /\ Delta_USD m = Delta_Native m
        /\ Vega_USD m = Vega_Native m)
    /\ (base_leg (pair usdjpy_call) = "USD"%string ->
        quote_leg (pair usdjpy_call) <> "USD"%string ->
        f = 1 / spot_price usdjpy_call
        /\ PV_USD m = PV_Native m / spot_price usdjpy_call
        /\ Delta_USD m = Delta_Native m / spot_price usdjpy_call
        /\ Vega_USD m = Vega_Native m / spot_price usdjpy_call)
    /\ (base_leg (pair usdjpy_call) <> "USD"%string ->
        quote_leg (pair usdjpy_call) <> "USD"%string ->
        f = 1).
Proof.
  apply (normalization_factor_cases usdjpy_call "USD").
  valid_sample.
Defined.

(** C10. One factor, a function of the pair, the reporting currency and
    the spot price alone, scales all three native metrics into the
    normalized ones; the [Currency] entry is the quote leg of the pair. *)
Theorem common_conversion_factor (t : FXOptionTrade) (reporting : string) :
  valid_trade t ->
  exists m,
    calculate_metrics t reporting = inr m
    /\ Currency m = quote_leg (pair t)
    /\ PV_USD m
       = GK.conversion_factor (pair t) reporting (spot_price t) * PV_Native m
    /\ Delta_USD m
       = GK.conversion_factor (pair t) reporting (spot_price t) * Delta_Native m
    /\ Vega_USD m
       = GK.conversion_factor (pair t) reporting (spot_price t) * Vega_Native m.
Proof.
  intros Hv. eexists. split; [apply (calculate_metrics_valid t reporting Hv) |].
  simpl. repeat split; ring.
Qed.

Lemma common_conversion_factor_witness :
  exists m,
    calculate_metrics eurgbp_put "USD" = inr m
    /\ Currency m = quote_leg (pair eurgbp_put)
    /\ PV_USD m
       = GK.conversion_factor (pair eurgbp_put) "USD" (spot_price eurgbp_put)
         * PV_Native m
    /\ Delta_USD m
       = GK.conversion_factor (pair eurgbp_put) "USD" (spot_price eurgbp_put)
         * Delta_Native m
    /\ Vega_USD m
       = GK.conversion_factor (pair eurgbp_put) "USD" (spot_price eurgbp_put)
         * Vega_Native m.
Proof.
  apply (common_conversion_factor eurgbp_put "USD").
  valid_sample.
Defined.

(** C5. Put-call parity: for a valid Call and the Put that differs from it
    in the option kind only, native price(Call) - native price(Put)
    = notional * (S exp(-r_f T) - K exp(-r_d T)). *)
Theorem put_call_parity (c p : FXOptionTrade) (reporting : string) :
  valid_trade c -> matched_call_put c p ->
  exists mc mp,
    calculate_metrics c reporting = inr mc
    /\ calculate_metrics p reporting = inr mp
    /\ PV_Native mc - PV_Native mp
       = notional c
         * (spot_price c * exp (- (foreign_rate c * time_to_maturity c))
            - strike_price c * exp (- (domestic_rate c * time_to_maturity c))).
Proof.
  intros Hc Hm.
  pose proof (matched_call_put_valid c p Hm Hc) as Hp.
  do 2 eexists.
  split; [apply (calculate_metrics_valid c reporting Hc) |].
  split; [apply (calculate_metrics_valid p reporting Hp) |].
  destruct Hm as (Hkc & Hkp & _ & _ & HS & HK & HN & _ & Hs & Hrd & Hrf & HT).
  simpl. unfold GK.price_of. rewrite Hkc, Hkp, <- HS, <- HK, <- HN, <- Hs, <- Hrd, <- Hrf, <- HT.
  unfold GK.unit_price, GK.d2, GK.domestic_DF, GK.foreign_DF.
  rewrite !norm_cdf_opp. ring.
Qed.

Lemma put_call_parity_witness :
  exists mc mp,
    calculate_metrics eurusd_call "USD" = inr mc
    /\ calculate_metrics eurusd_put "USD" = inr mp
    /\ PV_Native mc - PV_Native mp
       = notional eurusd_call
         * (spot_price eurusd_call
            * exp (- (foreign_rate eurusd_call * time_to_maturity eurusd_call))
            - strike_price eurusd_call
              * exp (- (domestic_rate eurusd_call * time_to_maturity eurusd_call))).
Proof.
  apply (put_call_parity eurusd_call eurusd_put "USD").
  - valid_sample.
  - unfold matched_call_put. simpl. repeat split; reflexivity.
Defined.




(** C3, as stated, fails: on a record with time-to-maturity 0 the engine
    does not fail; it returns a metrics record. *)
Lemma expired_trade_is_priced :
  time_to_maturity expired_call <= 0
  /\ exists m, calculate_metrics expired_call "USD" = inr m.
Proof.
  split; [simpl; lra |].
  apply calculate_metrics_returns; [reflexivity | simpl; lra | simpl; lra |].
  pose proof FloatFacts.float_max_ge_25. simpl. lra.
Qed.

(** C3, amended.  The engine does not guard its preconditions.  It never
    raises a domain error ([ValueError]).  On any record with a
    well-formed pair, non-zero spot and strike and a volatility whose
    square is within the range of the floats it returns a metrics record,
    whatever the maturity and the sign of the volatility.  The one failure
    that depends on the volatility is the [OverflowError] of [sigma ** 2]
    on a square out of that range, which is no domain error and no guard
    of sigma > 0.  The preconditions are the schema's: every constructed
    record has its maturity in (0, 100] and its volatility in (0, 5]. *)
Theorem pricing_relies_on_schema :
  (forall t reporting msg,
      calculate_metrics t reporting <> inl (ValueError msg))
  /\ (forall t reporting,
         matches_pair (pair t) = true ->
         spot_price t <> 0 -> strike_price t <> 0 ->
         volatility t ^ 2 <= float_max ->
         exists m, calculate_metrics t reporting = inr m)
  /\ (forall t reporting,
         strike_price t <> 0 -> float_max < volatility t ^ 2 ->
         calculate_metrics t reporting = inl OverflowError)
  /\ (forall r t,
         construct r = inr t ->
         0 < time_to_maturity t <= 100.0 /\ 0 < volatility t <= 5.0).
Proof.
  split; [exact calculate_metrics_no_value_error |].
  split; [exact calculate_metrics_returns |].
  split; [exact calculate_metrics_overflow |].
  intros r t H. apply construct_sound in H. unfold valid_trade in H. tauto.
Qed.

Lemma pricing_relies_on_schema_witness :
  volatility zero_vol_put <= 0
  /\ exists m, calculate_metrics zero_vol_put "USD" = inr m.
Proof.
  split; [simpl; lra |].
  apply (proj1 (proj2 pricing_relies_on_schema) zero_vol_put "USD"%string);
    [reflexivity | simpl; lra | simpl; lra |].
  pose proof FloatFacts.float_max_ge_25. simpl. lra.
Defined.

End PricingClaims.

(** ** Claims on the aggregator *)

Module AggregationClaims.

Import PortfolioAggregator Aggregates Frames Grouping.
Local Open Scope string_scope.

(** C8, as stated, fails: with no row at all (the report of an empty list
    of results) the totals are the empty frame, not the "No Valid Trades"
    row. *)
Lemma no_rows_no_sentinel :
  rows (prepare_trade_report []) = []
  /\ calculate_portfolio_totals (prepare_trade_report []) = inr []
  /\ ([] : Totals) <> no_valid_trades.
Proof. repeat split. discriminate. Qed.

(** C8, amended. With no row at all the totals are the empty frame.  With
    at least one row, a [Status] column and no row tagged "Success" they
    are the single row ("Status", "No Valid Trades").  In both cases the
    call returns, and what it returns is not a row of numeric totals. *)
Theorem totals_of_empty_batch (df : DataFrame) :
  (rows df = [] -> calculate_portfolio_totals df = inr [])
  /\ (rows df <> [] -> has_column "Status" df = true ->
      (forall r, In r (rows df) -> is_success r = false) ->
      calculate_portfolio_totals df = inr no_valid_trades)
  /\ (forall pv delta vega n,
         ([] : Totals) <> totals_rows pv delta vega n
         /\ no_valid_trades <> totals_rows pv delta vega n).
Proof.
  split; [| split].
  - intros Hr. unfold calculate_portfolio_totals.
    now rewrite (empty_no_rows df Hr).
  - intros Hr Hc Hs. unfold calculate_portfolio_totals.
    rewrite (empty_false df _ Hr Hc), Hc. simpl.
    unfold empty, successful. simpl. now rewrite (no_success_filter _ Hs).
  - intros pv delta vega n. split; discriminate.
Qed.

Lemma totals_of_empty_batch_witness :
  calculate_portfolio_totals failed_only_frame = inr no_valid_trades.
Proof.
  apply (proj1 (proj2 (totals_of_empty_batch failed_only_frame))).
  - discriminate.
  - reflexivity.
  - intros r [<- | []]. reflexivity.
Defined.

(** C9. On a frame that has the columns read, the total of a collection
    that is not empty, that is, with at least one row tagged "Success",
    is the sum of PV_USD, of Delta_USD and of Vega_USD over the rows
    tagged "Success", with the count of those rows; the by-pair and
    by-currency summaries hold one row per key met among the rows tagged
    "Success", with the sums of the same three fields over the group.  A
    row not tagged "Success" is skipped by every sum and by the count. *)
Theorem aggregation_sums_successful_rows (df : DataFrame) :
  has_columns ["Status"; "PV_USD"; "Delta_USD"; "Vega_USD"] df ->
  ((exists r, In r (rows df) /\ is_success r = true) ->
   calculate_portfolio_totals df
   = inr (totals_rows (sum_success PV_USD (rows df))
            (sum_success Delta_USD (rows df))
            (sum_success Vega_USD (rows df))
            (count_success (rows df))))
  /\ (has_column "Pair" df = true ->
      exists gs, group_risk_by_pair df = inr gs /\ grouped_by Pair (rows df) gs)
  /\ (has_column "Currency" df = true ->
      exists gs, group_risk_by_currency df = inr gs
                 /\ grouped_by Currency (rows df) gs).
Proof.
  intros Hc. split; [| split].
  - now apply calculate_portfolio_totals_sums.
  - now apply group_risk_grouped.
  - now apply group_risk_grouped.
Qed.

Lemma aggregation_sums_successful_rows_witness :
  ((exists r, In r (rows totals_frame) /\ is_success r = true) ->
   calculate_portfolio_totals totals_frame
   = inr (totals_rows (sum_success PV_USD (rows totals_frame))
            (sum_success Delta_USD (rows totals_frame))
            (sum_success Vega_USD (rows totals_frame))
            (count_success (rows totals_frame))))
  /\ (has_column "Pair" totals_frame = true ->
      exists gs, group_risk_by_pair totals_frame = inr gs
                 /\ grouped_by Pair (rows totals_frame) gs)
  /\ (has_column "Currency" totals_frame = true ->
      exists gs, group_risk_by_currency totals_frame = inr gs
                 /\ grouped_by Currency (rows totals_frame) gs).
Proof.
  apply (aggregation_sums_successful_rows totals_frame).
  apply result_columns_present.
Defined.

End AggregationClaims.

(** * Further properties of the code *)

(** ** More on the schema *)

Module SchemaCoverage.

Import Py Models Legs Schema LegsFacts Construction RowForms RowFacts Samples.

Local Open Scope string_scope.

(** Evaluation of the field checks on a row spelled out from a record. *)
Ltac run_spelled :=
  unfold validate_fields, get_field, float_field, str_field, enum_field,
    coerce_float;
  cbn [lookup String.eqb Ascii.eqb Bool.eqb set_item app trade_id pair
         spot_price strike_price notional notional_currency volatility
         domestic_rate foreign_rate time_to_maturity option_type].

(** X1. Round trip: a record that meets the constraints, written out as a
    row under the aliases, constructs back to itself. *)
Theorem construct_to_row (t : FXOptionTrade) :
  valid_trade t -> construct (to_row t) = inr t.
Proof. apply construct_complete. Qed.

Lemma construct_to_row_witness : construct (to_row usdjpy_call) = inr usdjpy_call.
Proof. apply (construct_to_row usdjpy_call). valid_sample. Defined.

(** The field checks of a spelled-out row in which one of volatility and
    maturity was replaced. *)
Lemma validate_fields_replaced (t : FXOptionTrade) (vol T : R) :
  valid_trade t ->
  validate_fields
    [("TradeID", VStr (trade_id t)); ("Underlying", VStr (pair t));
     ("Spot", VFloat (spot_price t)); ("Strike", VFloat (strike_price t));
     ("Notional", VFloat (notional t));
     ("NotionalCurrency", VStr (notional_currency t));
     ("Vol", VFloat vol);
     ("RateDomestic", VFloat (domestic_rate t));
     ("RateForeign", VFloat (foreign_rate t));
     ("Expiry", VFloat T);
     ("OptionType", VStr (OptionType_value (option_type t)))]
  = inr (mkFXOptionTrade (trade_id t) (pair t) (spot_price t) (strike_price t)
           (notional t) (notional_currency t))
    <*> at_loc "Vol"
          (if Rlt_dec 0 vol
           then if Rle_dec vol 5.0 then inr vol else inl (less_than_equal 5.0)
           else inl (greater_than 0))
    <*> inr (domestic_rate t) <*> inr (foreign_rate t)
    <*> at_loc "Expiry"
          (if Rlt_dec 0 T
           then if Rle_dec T 100.0 then inr T else inl (less_than_equal 100.0)
           else inl (greater_than 0))
    <*> inr (option_type t).
Proof.
  intros (Hp & HS & HK & HN & Hc & _).
  run_spelled. rewrite Hp, Hc.
  destruct (Rlt_dec 0 (spot_price t)); [| lra].
  destruct (Rlt_dec 0 (strike_price t)); [| lra].
  destruct (Rlt_dec 0 (notional t)); [| lra].
  destruct (option_type t); reflexivity.
Qed.

Lemma check_with_volatility (x : R) (t : FXOptionTrade) :
  valid_trade t ->
  check_currency_consistency (with_volatility x t) = inr (with_volatility x t).
Proof.
  intros (Hp & _ & _ & _ & _ & _ & _ & Hleg).
  apply check_currency_consistency_ok; assumption.
Qed.

Lemma check_with_time_to_maturity (x : R) (t : FXOptionTrade) :
  valid_trade t ->
  check_currency_consistency (with_time_to_maturity x t)
  = inr (with_time_to_maturity x t).
Proof.
  intros (Hp & _ & _ & _ & _ & _ & _ & Hleg).
  apply check_currency_consistency_ok; assumption.
Qed.

(** X2. The bounds of the volatility: in a row that is otherwise valid, a
    volatility x is accepted exactly when 0 < x <= 5.0; at or below 0 the
    single error is [greater_than 0] at "Vol", above 5.0 it is
    [less_than_equal 5.0]. *)
Theorem volatility_bounds (t : FXOptionTrade) (x : R) :
  valid_trade t ->
  construct (set_item "Vol" (VFloat x) (to_row t))
  = if Rlt_dec 0 x
    then if Rle_dec x 5.0 then inr (with_volatility x t)
         else inl [mkError "Vol" (less_than_equal 5.0)]
    else inl [mkError "Vol" (greater_than 0)].
Proof.
  intros Hv. pose proof Hv as (_ & _ & _ & _ & _ & _ & HT & _).
  unfold construct, to_row. cbn [set_item String.eqb Ascii.eqb Bool.eqb].
  rewrite (validate_fields_replaced t x (time_to_maturity t) Hv).
  destruct (Rlt_dec 0 (time_to_maturity t)); [| lra].
  destruct (Rle_dec (time_to_maturity t) 100.0); [| lra].
  destruct (Rlt_dec 0 x); [destruct (Rle_dec x 5.0) |]; cbn [at_loc ap];
    try reflexivity.
  change (mkFXOptionTrade _ _ _ _ _ _ _ _ _ _ _) with (with_volatility x t).
  now rewrite (check_with_volatility x t Hv).
Qed.

Lemma volatility_bounds_witness :
  construct (set_item "Vol" (VFloat 5.1) (to_row eurusd_call))
  = inl [mkError "Vol" (less_than_equal 5.0)].
Proof.
  rewrite (volatility_bounds eurusd_call 5.1); [| valid_sample].
  destruct (Rlt_dec 0 5.1); [| lra].
  destruct (Rle_dec 5.1 5.0); [lra | reflexivity].
Defined.

(** X3. The bounds of the maturity: in a row that is otherwise valid, a
    maturity x is accepted exactly when 0 < x <= 100.0; at or below 0 the
    single error is [greater_than 0] at "Expiry", above 100.0 it is
    [less_than_equal 100.0]. *)
Theorem maturity_bounds (t : FXOptionTrade) (x : R) :
  valid_trade t ->
  construct (set_item "Expiry" (VFloat x) (to_row t))
  = if Rlt_dec 0 x
    then if Rle_dec x 100.0 then inr (with_time_to_maturity x t)
         else inl [mkError "Expiry" (less_than_equal 100.0)]
    else inl [mkError "Expiry" (greater_than 0)].
Proof.
  intros Hv. pose proof Hv as (_ & _ & _ & _ & _ & Hvol & _ & _).
  unfold construct, to_row. cbn [set_item String.eqb Ascii.eqb Bool.eqb].
  rewrite (validate_fields_replaced t (volatility t) x Hv).
  destruct (Rlt_dec 0 (volatility t)); [| lra].
  destruct (Rle_dec (volatility t) 5.0); [| lra].
  destruct (Rlt_dec 0 x); [destruct (Rle_dec x 100.0) |]; cbn [at_loc ap];
    try reflexivity.
  change (mkFXOptionTrade _ _ _ _ _ _ _ _ _ _ _)
    with (with_time_to_maturity x t).
  now rewrite (check_with_time_to_maturity x t Hv).
Qed.

Lemma maturity_bounds_witness :
  construct (set_item "Expiry" (VFloat 0) (to_row eurusd_call))
  = inl [mkError "Expiry" (greater_than 0)].
Proof.
  rewrite (maturity_bounds eurusd_call 0); [| valid_sample].
  destruct (Rlt_dec 0 0); [lra | reflexivity].
Defined.


(** X4. [populate_by_name]: a record spelled out under the names of the
    fields constructs as under their aliases; when a row holds both, the
    aliases are read and the names are not. *)
Theorem names_and_aliases (t t' : FXOptionTrade) :
  valid_trade t ->
  construct (to_row_by_name t) = inr t
  /\ construct (to_row t ++ to_row_by_name t')%list = inr t.
Proof.
  intros Hv. rewrite <- (construct_complete t Hv). split.
  - apply construct_ext. intros alias name Hin. simpl in Hin.
    repeat (destruct Hin as [Hin | Hin];
            [inversion Hin; subst; reflexivity |]).
    contradiction.
  - apply construct_ext. intros alias name Hin. simpl in Hin.
    repeat (destruct Hin as [Hin | Hin];
            [inversion Hin; subst; reflexivity |]).
    contradiction.
Qed.

Lemma names_and_aliases_witness :
  construct (to_row_by_name eurusd_call) = inr eurusd_call
  /\ construct (to_row eurusd_call ++ to_row_by_name usdjpy_call)%list
     = inr eurusd_call.
Proof. apply (names_and_aliases eurusd_call usdjpy_call). valid_sample. Defined.

Lemma in_field_errors_missing (r : row) (alias name : string) :
  In (alias, name) schema_fields ->
  get_field r alias name = None ->
  In (mkError alias missing) (field_errors r).
Proof.
  intros Hin Hnone. unfold field_errors. simpl in Hin.
  repeat (destruct Hin as [Hin | Hin];
          [inversion Hin; subst; rewrite Hnone; cbn [str_field float_field enum_field errors_at at_loc errors_of];
           repeat (apply in_or_app; first [left; left; reflexivity | right]);
           try (left; reflexivity) |]).
  contradiction.
Qed.

(** X5. Required fields: when a row holds a field neither under its alias
    nor under its name, construction fails and the errors include
    [missing] at the alias of the field. *)
Theorem missing_field_reported (r : row) (alias name : string) :
  In (alias, name) schema_fields ->
  get_field r alias name = None ->
  exists errors,
    construct r = inl errors /\ In (mkError alias missing) errors.
Proof.
  intros Hin Hnone.
  pose proof (in_field_errors_missing r alias name Hin Hnone) as He.
  pose proof (validate_fields_errors r) as Hf.
  unfold construct. destruct (validate_fields r) as [errors | t].
  - exists errors. simpl in Hf. subst errors. auto.
  - simpl in Hf. rewrite <- Hf in He. contradiction.
Qed.

Lemma missing_field_reported_witness :
  exists errors,
    construct [("TradeID", VStr "T1"); ("Underlying", VStr "EUR/USD")] = inl errors
    /\ In (mkError "Vol" missing) errors.
Proof.
  apply (missing_field_reported _ "Vol" "volatility").
  - simpl. tauto.
  - reflexivity.
Defined.

(** X6. Keys that name no field are ignored: an entry under a key that is
    neither an alias nor a name of a field changes nothing, wherever it
    stands in the row. *)
Theorem unread_key_ignored (r1 r2 : row) (k : string) (v : value) :
  unread_key k ->
  construct (r1 ++ (k, v) :: r2)%list = construct (r1 ++ r2)%list.
Proof.
  intros Hk. apply construct_ext. intros alias name Hin.
  destruct (Hk alias name Hin) as [Ha Hn].
  unfold get_field. now rewrite !lookup_skip.
Qed.

Lemma unread_key_ignored_witness :
  construct (to_row eurusd_call ++ [("Desk", VStr "FX Options")])%list
  = construct (to_row eurusd_call ++ [])%list.
Proof.
  apply (unread_key_ignored (to_row eurusd_call) [] "Desk").
  intros alias name Hin. simpl in Hin.
  repeat (destruct Hin as [Hin | Hin];
          [inversion Hin; subst; split; discriminate |]).
  contradiction.
Defined.

End SchemaCoverage.

(** ** More on the model validator *)

Module ValidatorCoverage.

Import Py Models Schema DriverForms.

Local Open Scope string_scope.

Lemma split_nonempty (c : ascii) (s : string) : split c s <> [].
Proof.
  destruct s as [| a rest]; simpl; [discriminate |].
  destruct (Ascii.eqb a c); [discriminate |].
  destruct (split c rest); discriminate.
Qed.

Lemma split_length (c : ascii) (s : string) :
  List.length (split c s) = S (count_char c s).
Proof.
  induction s as [| a rest IH]; simpl; [reflexivity |].
  destruct (Ascii.eqb a c); simpl; [now rewrite IH |].
  pose proof (split_nonempty c rest) as Hne.
  destruct (split c rest) as [| w ws]; [contradiction | exact IH].
Qed.

(** Joining the parts with the separator gives the string back. *)
Lemma split_join (c : ascii) (s : string) :
  String.concat (String c EmptyString) (split c s) = s.
Proof.
  induction s as [| a rest IH]; simpl; [reflexivity |].
  pose proof (split_nonempty c rest) as Hne.
  destruct (Ascii.eqb_spec a c) as [-> | Hac].
  - destruct (split c rest) as [| w ws] eqn:E; [contradiction |].
    cbn [String.concat]. cbn [String.concat] in IH. rewrite IH. reflexivity.
  - destruct (split c rest) as [| w ws] eqn:E; [contradiction |].
    destruct ws as [| w' ws'].
    + cbn [String.concat] in *. now rewrite IH.
    + cbn [String.concat append] in *. now rewrite IH.
Qed.

Lemma contains_char_count (c : ascii) (s : string) :
  contains_char c s = negb (Nat.eqb (count_char c s) 0).
Proof.
  induction s as [| a rest IH]; simpl; [reflexivity |].
  destruct (Ascii.eqb a c); simpl; [reflexivity | exact IH].
Qed.

(** X22. The model validator on any record, validated or not.  It never
    changes the record.  On a pair with no "/" it lets every notional
    currency through.  On a pair with exactly one "/" the pair is
    base "/" quote, and it lets the record through exactly when the
    notional currency is base or quote, raising the currency message
    otherwise.  On a pair with more than one "/" it raises the
    [ValueError] of the unpacking. *)
Theorem check_currency_consistency_cases (t : FXOptionTrade) :
  (forall t', check_currency_consistency t = inr t' -> t' = t)
  /\ (count_char "/" (pair t) = 0%nat -> check_currency_consistency t = inr t)
  /\ (count_char "/" (pair t) = 1%nat ->
      exists base quote,
        pair t = base ++ "/" ++ quote
        /\ check_currency_consistency t
           = if String.eqb (notional_currency t) base
                || String.eqb (notional_currency t) quote
             then inr t
             else inl (currency_message (notional_currency t) (pair t)
                         base quote))
  /\ ((2 <= count_char "/" (pair t))%nat ->
      check_currency_consistency t = inl "too many values to unpack").
Proof.
  unfold check_currency_consistency.
  rewrite contains_char_count.
  pose proof (split_length "/" (pair t)) as Hlen.
  pose proof (split_join "/" (pair t)) as Hjoin.
  repeat split.
  - intros t'. destruct (Nat.eqb (count_char "/" (pair t)) 0); simpl;
      [intros H; now inversion H |].
    destruct (unpack2 (split "/" (pair t))) as [msg | [base quote]];
      [discriminate |].
    destruct (String.eqb (notional_currency t) base
              || String.eqb (notional_currency t) quote); simpl;
      [intros H; now inversion H | discriminate].
  - intros H0. now rewrite H0.
  - intros H1. rewrite H1 in *. simpl.
    destruct (split "/" (pair t)) as [| base [| quote [| ? ?]]];
      try discriminate.
    exists base, quote. split.
    + rewrite <- Hjoin. reflexivity.
    + simpl.
      destruct (String.eqb (notional_currency t) base
                || String.eqb (notional_currency t) quote); reflexivity.
  - intros H2.
    destruct (count_char "/" (pair t)) as [| [| n]] eqn:E; try lia.
    simpl.
    destruct (split "/" (pair t)) as [| a [| b [| c ws]]]; try discriminate.
    reflexivity.
Qed.

Lemma check_currency_consistency_cases_witness :
  check_currency_consistency
    (mkFXOptionTrade "T1" "EURUSD" 1.10 1.12 1000000 "GBP"
       0.20 0.02 0.01 0.5 CALL)
  = inr (mkFXOptionTrade "T1" "EURUSD" 1.10 1.12 1000000 "GBP"
           0.20 0.02 0.01 0.5 CALL).
Proof.
  apply (proj1 (proj2 (check_currency_consistency_cases _))).
  reflexivity.
Defined.

End ValidatorCoverage.

(** ** More on the pricing engine *)

Module PricingCoverage.

Import Py Models Normal NormalFacts Legs Schema LegsFacts BlackScholesFX
  Pricing RowForms Samples.
Module GK := GarmanKohlhagen.

Local Open Scope string_scope.

(** X7. The exceptions of the engine, exactly, in the order the code
    meets them.  It raises [ZeroDivisionError] when the strike is 0;
    otherwise [OverflowError] when the square of the volatility is out of
    the range of the floats; otherwise [UnboundLocalError] on [base_ccy]
    when the pair does not split in two and the reporting currency is not
    "Unknown", and [ZeroDivisionError] when the spot is 0, the base leg is
    the reporting currency and the quote leg is not; it never raises
    [ValueError] or [TypeError]; in every other case it returns. *)
Theorem calculate_metrics_outcomes (t : FXOptionTrade) (reporting : string) :
  let base_ccy := fst (split_pair (pair t)) in
  let quote_ccy := snd (split_pair (pair t)) in
  match calculate_metrics t reporting with
  | inl ZeroDivisionError =>
      strike_price t = 0
      \/ (volatility t ^ 2 <= float_max /\ spot_price t = 0
          /\ base_ccy = Some reporting /\ quote_ccy <> reporting)
  | inl OverflowError =>
      strike_price t <> 0 /\ float_max < volatility t ^ 2
  | inl (UnboundLocalError name) =>
      name = "base_ccy" /\ strike_price t <> 0
      /\ volatility t ^ 2 <= float_max /\ base_ccy = None
      /\ reporting <> "Unknown"
  | inl (ValueError _) => False
  | inl TypeError => False
  | inr m =>
      strike_price t <> 0 /\ volatility t ^ 2 <= float_max
      /\ (quote_ccy = reporting
          \/ exists base, base_ccy = Some base
                          /\ (base <> reporting \/ spot_price t <> 0))
  end.
Proof.
  unfold calculate_metrics, _calculate_d1_d2, truediv, float_pow.
  destruct (Req_dec_T (strike_price t) 0) as [HK | HK]; cbn [bind ret];
    [left; exact HK |].
  rewrite Rabs_right by (apply Rle_ge, pow2_ge_0).
  destruct (Rlt_dec float_max (volatility t ^ 2)) as [Hv | Hv];
    cbn [bind ret]; [split; assumption |].
  apply Rnot_lt_le in Hv.
  pose proof (eq_refl (split_pair (pair t))) as Hsp.
  unfold split_pair in Hsp at 2.
  destruct (split_pair (pair t)) as [base_ccy quote_ccy].
  cbn [fst snd]. unfold fx_rate_to_usd, truediv, ret.
  destruct (String.eqb_spec quote_ccy reporting) as [Hq | Hq].
  - destruct (option_type t); cbn [bind]; auto.
  - destruct base_ccy as [base |].
    + destruct (String.eqb_spec base reporting) as [Hb | Hb]; cbn [andb negb].
      * destruct (Req_dec_T (spot_price t) 0) as [HS | HS];
          destruct (option_type t); cbn [bind].
        -- right. subst. auto.
        -- right. subst. auto.
        -- split; [exact HK |]. split; [exact Hv |]. right. exists base. auto.
        -- split; [exact HK |]. split; [exact Hv |]. right. exists base. auto.
      * destruct (option_type t); cbn [bind];
          (split; [exact HK |]; split; [exact Hv |]; right; exists base; auto).
    + assert (Hu : quote_ccy = "Unknown").
      { destruct (unpack2 (split "/" (pair t))) as [msg | [b q]];
          inversion Hsp; reflexivity. }
      destruct (option_type t); cbn [bind]; repeat split; auto; congruence.
Qed.

(** X8. The native metrics and the [Currency] entry do not depend on the
    reporting currency. *)
Theorem native_metrics_ignore_reporting
    (t : FXOptionTrade) (reporting reporting' : string) (m m' : Metrics) :
  calculate_metrics t reporting = inr m ->
  calculate_metrics t reporting' = inr m' ->
  PV_Native m = PV_Native m' /\ Delta_Native m = Delta_Native m'
  /\ Vega_Native m = Vega_Native m' /\ Currency m = Currency m'.
Proof.
  unfold calculate_metrics.
  destruct (_calculate_d1_d2 _ _ _ _ _ _) as [e | [d1 d2]]; cbn [bind];
    [discriminate |].
  destruct (option_type t);
    destruct (split_pair (pair t)) as [base_ccy quote_ccy];
    destruct (fx_rate_to_usd base_ccy quote_ccy reporting (spot_price t))
      as [e | fx]; cbn [bind ret]; try discriminate;
    destruct (fx_rate_to_usd base_ccy quote_ccy reporting' (spot_price t))
      as [e' | fx']; cbn [bind ret]; try discriminate;
    intros H H'; inversion H; inversion H'; subst; simpl; auto.
Qed.

Lemma native_metrics_ignore_reporting_witness :
  exists m m',
    calculate_metrics usdjpy_call "USD" = inr m
    /\ calculate_metrics usdjpy_call "JPY" = inr m'
    /\ PV_Native m = PV_Native m' /\ Delta_Native m = Delta_Native m'
    /\ Vega_Native m = Vega_Native m' /\ Currency m = Currency m'.
Proof.
  pose proof (calculate_metrics_valid usdjpy_call "USD" usdjpy_call_valid) as H.
  pose proof (calculate_metrics_valid usdjpy_call "JPY" usdjpy_call_valid) as H'.
  do 2 eexists. split; [exact H |]. split; [exact H' |].
  exact (native_metrics_ignore_reporting usdjpy_call "USD" "JPY" _ _ H H').
Defined.

(** X9. A Call and the Put that differs from it in the option kind only
    have the same native vega, and their native deltas differ by
    notional * exp(-r_f T). *)
Theorem call_put_vega_and_delta (c p : FXOptionTrade) (reporting : string) :
  valid_trade c -> matched_call_put c p ->
  exists mc mp,
    calculate_metrics c reporting = inr mc
    /\ calculate_metrics p reporting = inr mp
    /\ Vega_Native mc = Vega_Native mp
    /\ Delta_Native mc - Delta_Native mp
       = notional c * exp (- (foreign_rate c * time_to_maturity c)).
Proof.
  intros Hc Hm.
  pose proof (matched_call_put_valid c p Hm Hc) as Hp.
  do 2 eexists.
  split; [apply (calculate_metrics_valid c reporting Hc) |].
  split; [apply (calculate_metrics_valid p reporting Hp) |].
  destruct Hm as (Hkc & Hkp & _ & _ & HS & HK & HN & _ & Hs & Hrd & Hrf & HT).
  simpl. unfold GK.vega_of, GK.delta_of.
  rewrite Hkc, Hkp, <- HS, <- HK, <- HN, <- Hs, <- Hrd, <- Hrf, <- HT.
  unfold GK.unit_delta, GK.foreign_DF. split; ring.
Qed.

Lemma call_put_vega_and_delta_witness :
  exists mc mp,
    calculate_metrics eurusd_call "USD" = inr mc
    /\ calculate_metrics eurusd_put "USD" = inr mp
    /\ Vega_Native mc = Vega_Native mp
    /\ Delta_Native mc - Delta_Native mp
       = notional eurusd_call
         * exp (- (foreign_rate eurusd_call * time_to_maturity eurusd_call)).
Proof.
  apply (call_put_vega_and_delta eurusd_call eurusd_put "USD").
  - valid_sample.
  - unfold matched_call_put. simpl. repeat split; reflexivity.
Defined.

Lemma with_notional_valid (x : R) (t : FXOptionTrade) :
  0 < x -> valid_trade t -> valid_trade (with_notional x t).
Proof. unfold valid_trade. simpl. tauto. Qed.

(** X10. The metrics are linear in the notional: on a valid record,
    multiplying the notional by c > 0 multiplies the six metrics by c and
    leaves the [Currency] entry as it is. *)
Theorem metrics_scale_with_notional
    (t : FXOptionTrade) (reporting : string) (c : R) :
  valid_trade t -> 0 < c ->
  exists m mc,
    calculate_metrics t reporting = inr m
    /\ calculate_metrics (with_notional (c * notional t) t) reporting = inr mc
    /\ PV_Native mc = c * PV_Native m
    /\ Delta_Native mc = c * Delta_Native m
    /\ Vega_Native mc = c * Vega_Native m
    /\ PV_USD mc = c * PV_USD m
    /\ Delta_USD mc = c * Delta_USD m
    /\ Vega_USD mc = c * Vega_USD m
    /\ Currency mc = Currency m.
Proof.
  intros Hv Hc.
  assert (Hvc : valid_trade (with_notional (c * notional t) t)).
  { apply with_notional_valid; [| exact Hv].
    destruct Hv as (_ & _ & _ & HN & _). now apply Rmult_lt_0_compat. }
  do 2 eexists.
  split; [apply (calculate_metrics_valid t reporting Hv) |].
  split; [apply (calculate_metrics_valid _ reporting Hvc) |].
  simpl. unfold GK.price_of, GK.delta_of, GK.vega_of. simpl.
  repeat split; ring.
Qed.

Lemma metrics_scale_with_notional_witness :
  exists m mc,
    calculate_metrics usdjpy_call "USD" = inr m
    /\ calculate_metrics
         (with_notional (2 * notional usdjpy_call) usdjpy_call) "USD" = inr mc
    /\ PV_Native mc = 2 * PV_Native m
    /\ Delta_Native mc = 2 * Delta_Native m
    /\ Vega_Native mc = 2 * Vega_Native m
    /\ PV_USD mc = 2 * PV_USD m
    /\ Delta_USD mc = 2 * Delta_USD m
    /\ Vega_USD mc = 2 * Vega_USD m
    /\ Currency mc = Currency m.
Proof.
  apply (metrics_scale_with_notional usdjpy_call "USD" 2).
  - valid_sample.
  - lra.
Defined.



End PricingCoverage.

(** ** More on the aggregator *)

Module AggregationCoverage.

Import PortfolioAggregator Aggregates Frames Grouping.
Local Open Scope string_scope.

Lemma key_lt_neq (a b : string) : key_lt a b -> a <> b.
Proof.
  unfold key_lt. intros H ->. rewrite compare_refl in H. discriminate.
Qed.

Lemma group_risk_value (name : string) (by_ : ResultRow -> string)
    (df : DataFrame) :
  has_columns ["Status"; "PV_USD"; "Delta_USD"; "Vega_USD"] df ->
  has_column name df = true ->
  group_risk name by_ df = inr (groupby_sum by_ (rows (successful df))).
Proof.
  intros Hc Hn.
  assert (Hst : has_column "Status" df = true) by (apply Hc; simpl; auto).
  assert (Hpv : has_column "PV_USD" df = true) by (apply Hc; simpl; auto).
  assert (Hde : has_column "Delta_USD" df = true) by (apply Hc; simpl; auto).
  assert (Hve : has_column "Vega_USD" df = true) by (apply Hc; simpl; auto).
  unfold group_risk. rewrite Hn. simpl. rewrite orb_false_r.
  destruct (empty df) eqn:He.
  - assert (Hr : rows df = []).
    { unfold empty, has_column in *. destruct (rows df); [reflexivity |].
      destruct (columns df); [discriminate Hn | discriminate He]. }
    unfold successful. rewrite Hr. reflexivity.
  - unfold column. rewrite Hst, !successful_columns, Hpv, Hde, Hve.
    reflexivity.
Qed.

Lemma all_columns_present (rs : list ResultRow) :
  has_columns ["Status"; "PV_USD"; "Delta_USD"; "Vega_USD"; "Pair"; "Currency"]
    (mkFrame result_columns rs).
Proof.
  intros name Hin. simpl in Hin.
  destruct Hin as [<- | [<- | [<- | [<- | [<- | [<- | []]]]]]]; reflexivity.
Qed.

(** *** The order of the rows *)

Lemma filter_permutation (p : ResultRow -> bool) (rs rs' : list ResultRow) :
  Permutation rs rs' -> Permutation (filter p rs) (filter p rs').
Proof.
  induction 1 as [| r l l' _ IH | r r' l | l l' l'' _ IH1 _ IH2]; simpl.
  - constructor.
  - destruct (p r); [now constructor | exact IH].
  - destruct (p r), (p r'); try apply Permutation_refl. apply perm_swap.
  - now apply Permutation_trans with (filter p l').
Qed.

Lemma sorted_same_members (l l' : list string) :
  StronglySorted key_lt l -> StronglySorted key_lt l' ->
  (forall k, In k l <-> In k l') -> l = l'.
Proof.
  revert l'. induction l as [| h t IH]; intros [| h' t'] Hs Hs' Hm.
  - reflexivity.
  - exfalso. apply (proj2 (Hm h')). now left.
  - exfalso. apply (proj1 (Hm h)). now left.
  - inversion Hs as [| ? ? Ht Hall]; inversion Hs' as [| ? ? Ht' Hall']; subst.
    rewrite Forall_forall in Hall, Hall'.
    assert (Hh : h = h').
    { destruct (proj1 (Hm h) (or_introl eq_refl)) as [Heq | Hin];
        [now symmetry |].
      destruct (proj2 (Hm h') (or_introl eq_refl)) as [Heq | Hin'];
        [exact Heq |].
      exfalso. apply (key_lt_neq h h); [| reflexivity].
      apply (compare_lt_trans h h' h); [now apply Hall | now apply Hall']. }
    subst h'. f_equal. apply IH; [exact Ht | exact Ht' |].
    intros k. split; intros Hin.
    + destruct (proj1 (Hm k) (or_intror Hin)) as [Heq | Hin']; [| exact Hin'].
      subst k. exfalso. apply (key_lt_neq h h); [| reflexivity]. now apply Hall.
    + destruct (proj2 (Hm k) (or_intror Hin)) as [Heq | Hin']; [| exact Hin'].
      subst k. exfalso. apply (key_lt_neq h h); [| reflexivity]. now apply Hall'.
Qed.

Lemma group_keys_permutation (by_ : ResultRow -> string)
    (rs rs' : list ResultRow) :
  Permutation rs rs' -> group_keys by_ rs = group_keys by_ rs'.
Proof.
  intros Hp. apply sorted_same_members; try apply group_keys_sorted.
  intros k. rewrite !group_keys_In. split; intros (r & Hin & Hk); exists r;
    split; try exact Hk.
  - now apply (Permutation_in r Hp).
  - now apply (Permutation_in r (Permutation_sym Hp)).
Qed.

Lemma groupby_sum_keys (by_ : ResultRow -> string) (rs : list ResultRow) :
  map key (groupby_sum by_ rs) = group_keys by_ rs.
Proof.
  unfold groupby_sum. rewrite map_map. cbn [key]. apply map_id.
Qed.

(** X13. The layout of the two summaries does not depend on the order of
    the rows: on two frames with the same columns (those read among them)
    whose rows are a rearrangement of each other, the by-pair summaries
    hold the same keys in the same order, and so do the by-currency
    summaries; the keys come in increasing order, each once.  (Nothing
    is said of the sums: they add floats in the order of the rows.) *)
Theorem summary_keys_ignore_row_order
    (cols : list string) (rs rs' : list ResultRow) :
  Permutation rs rs' ->
  has_columns ["Status"; "PV_USD"; "Delta_USD"; "Vega_USD"; "Pair"; "Currency"]
    (mkFrame cols rs) ->
  exists by_pair by_pair' by_ccy by_ccy',
    group_risk_by_pair (mkFrame cols rs) = inr by_pair
    /\ group_risk_by_pair (mkFrame cols rs') = inr by_pair'
    /\ group_risk_by_currency (mkFrame cols rs) = inr by_ccy
    /\ group_risk_by_currency (mkFrame cols rs') = inr by_ccy'
    /\ map key by_pair = map key by_pair'
    /\ map key by_ccy = map key by_ccy'
    /\ StronglySorted key_lt (map key by_pair)
    /\ StronglySorted key_lt (map key by_ccy).
Proof.
  intros Hp Hc.
  assert (Hc' : has_columns
                  ["Status"; "PV_USD"; "Delta_USD"; "Vega_USD"; "Pair";
                   "Currency"] (mkFrame cols rs')).
  { intros name Hin. exact (Hc name Hin). }
  assert (H4 : forall l, has_columns
                           ["Status"; "PV_USD"; "Delta_USD"; "Vega_USD";
                            "Pair"; "Currency"] (mkFrame cols l) ->
                         has_columns ["Status"; "PV_USD"; "Delta_USD"; "Vega_USD"]
                           (mkFrame cols l)).
  { intros l H name Hin. apply H. simpl in *. tauto. }
  pose proof (filter_permutation
                (fun r => String.eqb (Status r) "Success") rs rs' Hp) as Hf.
  do 4 eexists.
  split; [apply (group_risk_value "Pair" Pair _ (H4 _ Hc));
          apply Hc; simpl; tauto |].
  split; [apply (group_risk_value "Pair" Pair _ (H4 _ Hc'));
          apply Hc'; simpl; tauto |].
  split; [apply (group_risk_value "Currency" Currency _ (H4 _ Hc));
          apply Hc; simpl; tauto |].
  split; [apply (group_risk_value "Currency" Currency _ (H4 _ Hc'));
          apply Hc'; simpl; tauto |].
  rewrite !groupby_sum_keys. cbn [successful rows].
  split; [now apply group_keys_permutation |].
  split; [now apply group_keys_permutation |].
  split; apply group_keys_sorted.
Qed.

Lemma summary_keys_ignore_row_order_witness :
  exists by_pair by_pair' by_ccy by_ccy',
    group_risk_by_pair (mkFrame result_columns (rows currency_frame))
    = inr by_pair
    /\ group_risk_by_pair (mkFrame result_columns (rev (rows currency_frame)))
       = inr by_pair'
    /\ group_risk_by_currency (mkFrame result_columns (rows currency_frame))
       = inr by_ccy
    /\ group_risk_by_currency
         (mkFrame result_columns (rev (rows currency_frame)))
       = inr by_ccy'
    /\ map key by_pair = map key by_pair'
    /\ map key by_ccy = map key by_ccy'
    /\ StronglySorted key_lt (map key by_pair)
    /\ StronglySorted key_lt (map key by_ccy).
Proof.
  apply (summary_keys_ignore_row_order result_columns
           (rows currency_frame) (rev (rows currency_frame))).
  - apply Permutation_rev.
  - apply all_columns_present.
Defined.

(** X14. A row that is not tagged "Success" is neutral in a frame that
    already has rows: adding it changes neither the total nor the two
    summaries.  (Added to a frame with no rows it is not: the total of the
    frame turns from the empty frame into the "No Valid Trades" row.) *)
Theorem failed_row_is_neutral (df : DataFrame) (r : ResultRow) :
  rows df <> [] -> is_success r = false ->
  let df' := mkFrame (columns df) (r :: rows df) in
  calculate_portfolio_totals df' = calculate_portfolio_totals df
  /\ group_risk_by_pair df' = group_risk_by_pair df
  /\ group_risk_by_currency df' = group_risk_by_currency df.
Proof.
  intros Hr Hs. cbv zeta.
  assert (He : empty (mkFrame (columns df) (r :: rows df)) = empty df).
  { unfold empty. simpl. destruct (rows df); [contradiction | reflexivity]. }
  assert (Hf : successful (mkFrame (columns df) (r :: rows df)) = successful df).
  { unfold successful. simpl. unfold is_success in Hs. now rewrite Hs. }
  unfold group_risk_by_pair, group_risk_by_currency, group_risk,
    calculate_portfolio_totals.
  rewrite He, Hf. unfold has_column, column, has_column. simpl.
  repeat split; reflexivity.
Qed.

Lemma failed_row_is_neutral_witness :
  calculate_portfolio_totals
    (mkFrame (columns currency_frame)
       (result_row "T9" "USD/JPY" "JPY" "Failed" 999.0 0.0 0.0
          :: rows currency_frame))
  = calculate_portfolio_totals currency_frame
  /\ group_risk_by_pair
       (mkFrame (columns currency_frame)
          (result_row "T9" "USD/JPY" "JPY" "Failed" 999.0 0.0 0.0
             :: rows currency_frame))
     = group_risk_by_pair currency_frame
  /\ group_risk_by_currency
       (mkFrame (columns currency_frame)
          (result_row "T9" "USD/JPY" "JPY" "Failed" 999.0 0.0 0.0
             :: rows currency_frame))
     = group_risk_by_currency currency_frame.
Proof.
  apply (failed_row_is_neutral currency_frame
           (result_row "T9" "USD/JPY" "JPY" "Failed" 999.0 0.0 0.0)).
  - discriminate.
  - reflexivity.
Defined.

(** X15. Columns that are not there.  On a frame with rows and without a
    [Status] column the total is the empty frame, while each grouping
    whose own column is there raises [KeyError('Status')].  With a
    [Status] column and a row tagged "Success", the total raises
    [KeyError('PV_USD')] when that column is not there. *)
Theorem missing_columns (df : DataFrame) :
  rows df <> [] ->
  (has_column "Status" df = false ->
   calculate_portfolio_totals df = inr []
   /\ (has_column "Pair" df = true -> group_risk_by_pair df = inl "Status")
   /\ (has_column "Currency" df = true ->
       group_risk_by_currency df = inl "Status"))
  /\ (has_column "Status" df = true ->
      (exists r, In r (rows df) /\ is_success r = true) ->
      has_column "PV_USD" df = false ->
      calculate_portfolio_totals df = inl "PV_USD").
Proof.
  intros Hr. split.
  - intros Hs. split; [| split].
    + unfold calculate_portfolio_totals. rewrite Hs, orb_true_r. reflexivity.
    + intros Hp. unfold group_risk_by_pair, group_risk.
      rewrite (empty_false df _ Hr Hp), Hp. unfold column. now rewrite Hs.
    + intros Hp. unfold group_risk_by_currency, group_risk.
      rewrite (empty_false df _ Hr Hp), Hp. unfold column. now rewrite Hs.
  - intros Hs Hex Hpv. unfold calculate_portfolio_totals.
    rewrite (empty_false df _ Hr Hs), Hs. simpl.
    rewrite (empty_false (successful df) "Status" (some_success_filter _ Hex) Hs).
    unfold column. rewrite !successful_columns, Hpv. reflexivity.
Qed.

Lemma missing_columns_witness :
  calculate_portfolio_totals
    (mkFrame ["Pair"; "PV_USD"; "Delta_USD"; "Vega_USD"] (rows totals_frame))
  = inr []
  /\ group_risk_by_pair
       (mkFrame ["Pair"; "PV_USD"; "Delta_USD"; "Vega_USD"] (rows totals_frame))
     = inl "Status".
Proof.
  pose proof (missing_columns
                (mkFrame ["Pair"; "PV_USD"; "Delta_USD"; "Vega_USD"]
                   (rows totals_frame))) as H.
  destruct H as [H _]; [discriminate |].
  destruct (H eq_refl) as (Ht & Hp & _).
  split; [exact Ht | exact (Hp eq_refl)].
Defined.

(** X16. On the frame [prepare_trade_report] builds, of any list of
    results, no aggregation raises: each of the three returns a frame. *)
Theorem report_aggregations_return (results : list ResultRow) :
  exists total by_pair by_ccy,
    calculate_portfolio_totals (prepare_trade_report results) = inr total
    /\ group_risk_by_pair (prepare_trade_report results) = inr by_pair
    /\ group_risk_by_currency (prepare_trade_report results) = inr by_ccy.
Proof.
  destruct results as [| r rest].
  - exists [], [], []. repeat split; reflexivity.
  - unfold prepare_trade_report.
    pose proof (all_columns_present (r :: rest)) as Hc.
    assert (Hc4 : has_columns ["Status"; "PV_USD"; "Delta_USD"; "Vega_USD"]
                    (mkFrame result_columns (r :: rest))).
    { intros name Hin. apply Hc. simpl in *. tauto. }
    destruct (existsb is_success (r :: rest)) eqn:E.
    + apply existsb_exists in E.
      eexists. do 2 eexists.
      split; [apply (calculate_portfolio_totals_sums _ Hc4 E) |].
      split; [apply (group_risk_value "Pair" Pair _ Hc4 eq_refl) |
              apply (group_risk_value "Currency" Currency _ Hc4 eq_refl)].
    + exists no_valid_trades. do 2 eexists.
      split; [| split; [apply (group_risk_value "Pair" Pair _ Hc4 eq_refl) |
                        apply (group_risk_value "Currency" Currency _ Hc4 eq_refl)]].
      unfold calculate_portfolio_totals.
      assert (Hno : forall x, In x (r :: rest) -> is_success x = false).
      { intros x Hin. destruct (is_success x) eqn:Ex; [| reflexivity].
        assert (existsb is_success (r :: rest) = true) as Hy
          by (apply existsb_exists; exists x; auto).
        rewrite Hy in E. discriminate. }
      cbn [empty rows columns result_columns has_column existsb String.eqb
             Ascii.eqb Bool.eqb orb negb successful].
      change (existsb (String.eqb "Status") result_columns) with true.
      cbn [negb orb]. unfold empty, successful. cbn [rows columns].
      now rewrite (no_success_filter _ Hno).
Qed.

End AggregationCoverage.

(** ** More on the driver *)

Module DriverCoverage.

Import Py Models Legs Schema Construction Driver DriverForms Rows.
Module GK := GarmanKohlhagen.
Module PA := PortfolioAggregator.
Module BS := BlackScholesFX.

Local Open Scope string_scope.

Lemma keywords_labelled (r : row) : keywords (labelled r) = Some r.
Proof.
  induction r as [| [k v] rest IH]; cbn; [reflexivity |].
  fold (labelled rest). now rewrite IH.
Qed.

(** The loop on one row.  A row with a label that is not a string is
    rejected by the last handler, on the [TypeError] of the call.  Of the
    others, a row that constructs gives a success record of its record and
    the metrics of the engine, and a row that does not is rejected by the
    first handler, with the errors of the construction. *)
Lemma process_row_cases (r : raw_row) :
  match keywords r with
  | None => process_row r = inr (mkRejected r (SystemError TypeError))
  | Some kwargs =>
      match construct kwargs with
      | inr t =>
          exists m, BS.calculate_metrics t "USD" = inr m
                    /\ process_row r = inl (success_record t m)
      | inl errors => process_row r = inr (mkRejected r (Validation errors))
      end
  end.
Proof.
  unfold process_row. destruct (keywords r) as [kwargs |]; [| reflexivity].
  destruct (construct kwargs) as [errors | t] eqn:Ec; [reflexivity |].
  pose proof (construct_sound kwargs t Ec) as Hv.
  pose proof (Pricing.calculate_metrics_valid t "USD" Hv) as Hm.
  eexists. split; [exact Hm |]. now rewrite Hm.
Qed.

Lemma process_row_constructs (r : raw_row) :
  match process_row r with
  | inl _ => constructs r = true
  | inr x => constructs r = false /\ rejected_row x = r
  end.
Proof.
  pose proof (process_row_cases r) as H. unfold constructs.
  destruct (keywords r) as [kwargs |].
  - destruct (construct kwargs) as [errors | t].
    + rewrite H. split; reflexivity.
    + destruct H as (m & _ & ->). reflexivity.
  - rewrite H. split; reflexivity.
Qed.

(** X17. The loop partitions the rows: every row ends in exactly one of
    the two lists, in the order read.  The rejected rows are the rows that
    fail validation, unchanged, and there are as many success records as
    rows that pass it. *)
Theorem process_rows_partition (df_raw : list raw_row) :
  map rejected_row (snd (process_rows df_raw))
  = filter (fun r => negb (constructs r)) df_raw
  /\ List.length (fst (process_rows df_raw))
     = List.length (filter constructs df_raw)
  /\ (List.length (fst (process_rows df_raw))
      + List.length (snd (process_rows df_raw)) = List.length df_raw)%nat.
Proof.
  induction df_raw as [| r rest (IH1 & IH2 & IH3)]; [repeat split |].
  cbn [process_rows].
  destruct (process_rows rest) as [valid rejected]. cbn [fst snd] in *.
  pose proof (process_row_constructs r) as Hc.
  destruct (process_row r) as [s | x]; cbn [fst snd filter map List.length].
  - rewrite Hc. cbn [negb].
    repeat split; [exact IH1 | cbn; now rewrite IH2 | lia].
  - destruct Hc as [Hc Hx]. rewrite Hc, Hx. cbn [negb].
    repeat split; [now rewrite IH1 | exact IH2 | lia].
Qed.

(** X18. The handler behind every rejection.  A rejected row whose labels
    are all strings was rejected by validation, and its [Error] holds the
    errors of its construction.  A rejected row with a label that is not a
    string was rejected by the last handler, on the [TypeError] of the
    call.  The handler for a pricing failure never fires, and the last one
    fires on nothing else: the engine returns on every record the schema
    constructs. *)
Theorem rejections_by_handler (df_raw : list raw_row) :
  Forall (fun x =>
            In (rejected_row x) df_raw
            /\ (forall msg, Error x <> Pricing msg)
            /\ match keywords (rejected_row x) with
               | Some kwargs =>
                   exists errors,
                     construct kwargs = inl errors
                     /\ Error x = Validation errors
               | None => Error x = SystemError TypeError
               end)
    (snd (process_rows df_raw)).
Proof.
  induction df_raw as [| r rest IH]; [constructor |].
  cbn [process_rows].
  destruct (process_rows rest) as [valid rejected]. cbn [fst snd] in *.
  match goal with
  | |- Forall ?P _ =>
      assert (IH' : Forall P rejected);
      [eapply Forall_impl; [| exact IH]; intros x (Hin & He);
       split; [now right | exact He] |]
  end.
  pose proof (process_row_cases r) as Hr.
  destruct (process_row r) as [s | x]; cbn [snd]; [exact IH' |].
  constructor; [| exact IH'].
  destruct (keywords r) as [kwargs |] eqn:Ek.
  - destruct (construct kwargs) as [errors | t] eqn:Ec.
    + inversion Hr; subst x. cbn [rejected_row Error]. rewrite Ek.
      split; [now left |]. split; [discriminate |]. exists errors. auto.
    + destruct Hr as (m & _ & Hr). discriminate.
  - inversion Hr; subst x. cbn [rejected_row Error]. rewrite Ek.
    split; [now left |]. split; [discriminate | reflexivity].
Qed.

(** X19. Every record of the trade report is tagged "Success" and holds
    what the engine returns on the record of one of the rows read: its
    pair, the quote leg of the pair as [Currency], and normalized metrics
    that are the native ones times the conversion factor to USD. *)
Theorem success_records_come_from_rows (df_raw : list raw_row) :
  Forall (fun s =>
            PA.Status s = "Success"
            /\ exists r kwargs t,
                 In r df_raw /\ keywords r = Some kwargs
                 /\ construct kwargs = inr t
                 /\ PA.TradeID s = trade_id t
                 /\ PA.Pair s = pair t
                 /\ PA.Type_ s = OptionType_value (option_type t)
                 /\ PA.Notional s = notional t
                 /\ PA.Currency s = quote_leg (pair t)
                 /\ PA.PV_Native s = GK.price_of t * notional t
                 /\ PA.PV_USD s
                    = PA.PV_Native s
                      * GK.conversion_factor (pair t) "USD" (spot_price t)
                 /\ PA.Delta_USD s
                    = PA.Delta_Native s
                      * GK.conversion_factor (pair t) "USD" (spot_price t)
                 /\ PA.Vega_USD s
                    = PA.Vega_Native s
                      * GK.conversion_factor (pair t) "USD" (spot_price t))
    (fst (process_rows df_raw)).
Proof.
  induction df_raw as [| r rest IH]; [constructor |].
  cbn [process_rows].
  destruct (process_rows rest) as [valid rejected]. cbn [fst snd] in *.
  match goal with
  | |- Forall ?P _ => assert (IH' : Forall P valid)
  end.
  { eapply Forall_impl; [| exact IH].
    intros s (Hs & r' & kwargs & t & Hin & H).
    split; [exact Hs |]. exists r', kwargs, t. split; [now right | exact H]. }
  pose proof (process_row_cases r) as Hr.
  destruct (process_row r) as [s | x]; cbn [fst]; [| exact IH'].
  constructor; [| exact IH'].
  destruct (keywords r) as [kwargs |] eqn:Ek; [| discriminate].
  destruct (construct kwargs) as [errors | t] eqn:Ec; [discriminate |].
  destruct Hr as (m & Hm & Hr). inversion Hr; subst s.
  pose proof (construct_sound kwargs t Ec) as Hv.
  rewrite (Pricing.calculate_metrics_valid t "USD" Hv) in Hm.
  inversion Hm; subst m. cbn.
  split; [reflexivity |]. exists r, kwargs, t.
  repeat split; auto.
Qed.

Lemma success_records_tagged (df_raw : list raw_row) :
  forall s, In s (fst (process_rows df_raw)) -> Aggregates.is_success s = true.
Proof.
  induction df_raw as [| r rest IH]; [intros s [] |].
  cbn [process_rows].
  destruct (process_rows rest) as [valid rejected]. cbn [fst snd] in *.
  pose proof (process_row_cases r) as Hr.
  destruct (process_row r) as [s0 | x]; cbn [fst]; [| exact IH].
  intros s [<- | Hin]; [| now apply IH].
  destruct (keywords r) as [kwargs |]; [| discriminate].
  destruct (construct kwargs) as [errors | t]; [discriminate |].
  destruct Hr as (m & _ & Hr). inversion Hr. reflexivity.
Qed.

(** X20. The portfolio summary of a run is never the "No Valid Trades"
    row.  When no row passes validation it is the empty frame; otherwise
    it is a row of totals whose count of valid trades is the number of
    rows that pass validation. *)
Theorem summary_of_run (df_raw : list raw_row) :
  df_summary (run_risk_engine df_raw) <> inr PA.no_valid_trades
  /\ ((forall r, In r df_raw -> constructs r = false) ->
      df_summary (run_risk_engine df_raw) = inr [])
  /\ ((exists r, In r df_raw /\ constructs r = true) ->
      exists pv delta vega,
        df_summary (run_risk_engine df_raw)
        = inr (Aggregates.totals_rows pv delta vega
                 (List.length (filter constructs df_raw)))).
Proof.
  pose proof (process_rows_partition df_raw) as (_ & Hlen & _).
  pose proof (success_records_tagged df_raw) as Hs.
  unfold run_risk_engine.
  destruct (process_rows df_raw) as [valid rejected]. cbn [fst snd] in *.
  cbn [df_summary].
  assert (Hcase : match valid with
                  | [] => PA.calculate_portfolio_totals
                            (PA.prepare_trade_report valid) = inr []
                  | _ => exists pv delta vega,
                      PA.calculate_portfolio_totals
                        (PA.prepare_trade_report valid)
                      = inr (Aggregates.totals_rows pv delta vega
                               (List.length valid))
                  end).
  { destruct valid as [| s rest]; [reflexivity |].
    unfold PA.prepare_trade_report.
    rewrite Grouping.calculate_portfolio_totals_sums.
    - cbn [PA.rows]. do 3 eexists. f_equal. f_equal.
      clear Hlen. induction (s :: rest) as [| a l IHl]; [reflexivity |].
      cbn. rewrite (Hs a (or_introl eq_refl)). cbn. f_equal.
      apply IHl. intros s' Hin. apply Hs. now right.
    - apply Grouping.result_columns_present.
    - exists s. split; [now left | apply Hs; now left]. }
  split; [| split].
  - destruct valid as [| s rest].
    + rewrite Hcase. discriminate.
    + destruct Hcase as (pv & delta & vega & ->). discriminate.
  - intros Hno. destruct valid as [| s rest]; [exact Hcase |]. exfalso.
    destruct (filter constructs df_raw) as [| r l] eqn:Ef; [discriminate |].
    assert (Hin : In r (filter constructs df_raw)) by (rewrite Ef; now left).
    apply filter_In in Hin. destruct Hin as [Hin Hc].
    rewrite (Hno r Hin) in Hc. discriminate.
  - intros (r & Hin & Hc). destruct valid as [| s rest].
    + exfalso.
      assert (Hf : In r (filter constructs df_raw)) by (apply filter_In; auto).
      destruct (filter constructs df_raw); [contradiction | discriminate].
    + rewrite <- Hlen. exact Hcase.
Qed.

(** X21. The sheets of the report.  "Portfolio Summary" (with the trade
    level and the two risk sheets) is written exactly when some row passes
    validation, "Rejected Trades" exactly when some row fails it, and no
    sheet at all exactly when there is no row. *)
Theorem sheets_of_run (df_raw : list raw_row) :
  (In "Portfolio Summary" (sheets (run_risk_engine df_raw))
   <-> exists r, In r df_raw /\ constructs r = true)
  /\ (In "Rejected Trades" (sheets (run_risk_engine df_raw))
      <-> exists r, In r df_raw /\ constructs r = false)
  /\ (sheets (run_risk_engine df_raw) = [] <-> df_raw = []).
Proof.
  pose proof (process_rows_partition df_raw) as (Hrej & Hval & Hlen).
  unfold run_risk_engine, sheets.
  destruct (process_rows df_raw) as [valid rejected]. cbn [fst snd] in *.
  cbn [df_trades df_rejected].
  assert (Hv : valid = [] <-> ~ exists r, In r df_raw /\ constructs r = true).
  { split.
    - intros -> (r & Hin & Hc).
      assert (In r (filter constructs df_raw)) as Hf by (apply filter_In; auto).
      destruct (filter constructs df_raw); [contradiction | discriminate].
    - intros Hno. destruct valid as [| s rest]; [reflexivity |]. exfalso.
      destruct (filter constructs df_raw) as [| r l] eqn:Ef; [discriminate |].
      apply Hno. exists r.
      apply filter_In. rewrite Ef. now left. }
  assert (Hr : rejected = [] <-> ~ exists r, In r df_raw /\ constructs r = false).
  { split.
    - intros -> (r & Hin & Hc).
      assert (In r (filter (fun r => negb (constructs r)) df_raw)) as Hf
        by (apply filter_In; rewrite Hc; auto).
      rewrite <- Hrej in Hf. contradiction.
    - intros Hno. destruct rejected as [| x rest]; [reflexivity |]. exfalso.
      assert (In (rejected_row x) (filter (fun r => negb (constructs r)) df_raw))
        as Hf by (rewrite <- Hrej; now left).
      apply filter_In in Hf. destruct Hf as [Hin Hc].
      apply Hno. exists (rejected_row x). split; [exact Hin |].
      now destruct (constructs (rejected_row x)). }
  split; [| split].
  - destruct valid as [| s rest].
    + cbn. split.
      * intros Hin. exfalso.
        destruct rejected; cbn in Hin; [contradiction |].
        destruct Hin as [Hin | []]; discriminate.
      * intros Hex. exfalso. now apply (proj1 Hv eq_refl).
    + cbn. split; [| tauto]. intros _.
      apply Classical_Prop.NNPP. intros Hno.
      apply Hv in Hno. discriminate.
  - destruct rejected as [| x rest].
    + split.
      * intros Hin. exfalso. rewrite app_nil_r in Hin.
        destruct valid; cbn in Hin; [contradiction |].
        repeat (destruct Hin as [Hin | Hin]; [discriminate |]). contradiction.
      * intros Hex. exfalso. now apply (proj1 Hr eq_refl).
    + split; [| intros _; apply in_or_app; right; now left]. intros _.
      apply Classical_Prop.NNPP. intros Hno.
      apply Hr in Hno. discriminate.
  - split.
    + intros Hs. destruct valid as [| s rest]; [| discriminate].
      destruct rejected as [| x rest]; [| discriminate].
      cbn in Hlen. destruct df_raw; [reflexivity | discriminate].
    + intros ->. cbn in Hlen.
      destruct valid; [| discriminate]. destruct rejected; [| cbn in Hlen; lia].
      reflexivity.
Qed.

(** A run on the valid row of the tests, the row with the currency
    mismatch and the valid row again under one more column, with a number
    as its header: one record in the trade report, two rejected rows, the
    second of them on the [TypeError]. *)
Example run_on_three_rows :
  let numbered := (LNum 2024, VFloat 1.0) :: labelled VALID_DATA in
  let report :=
    run_risk_engine [labelled VALID_DATA; labelled gbp_row; numbered] in
  List.length (PA.rows (df_trades report)) = 1%nat
  /\ map rejected_row (df_rejected report) = [labelled gbp_row; numbered]
  /\ (exists errors,
        map Error (df_rejected report)
        = [Validation errors; SystemError TypeError])
  /\ sheets report
     = ["Trade Level"; "Portfolio Summary"; "Risk by Pair";
        "Risk by Currency"; "Rejected Trades"].
Proof.
  cbv zeta.
  assert (H1 : exists s, process_row (labelled VALID_DATA) = inl s).
  { pose proof (process_row_cases (labelled VALID_DATA)) as H.
    rewrite keywords_labelled, VALID_DATA_constructs in H.
    destruct H as (m & _ & H). eauto. }
  assert (H2 : exists errors,
             process_row (labelled gbp_row)
             = inr (mkRejected (labelled gbp_row) (Validation errors))).
  { assert (Hc : exists errors, construct gbp_row = inl errors).
    { eexists. unfold construct, gbp_row, data. run_fields. reflexivity. }
    destruct Hc as (errors & Hc).
    pose proof (process_row_cases (labelled gbp_row)) as H.
    rewrite keywords_labelled, Hc in H. eauto. }
  destruct H1 as (s & H1). destruct H2 as (errors & H2).
  unfold run_risk_engine, sheets. cbn [process_rows]. rewrite H1, H2.
  change (process_row ((LNum 2024, VFloat 1.0) :: labelled VALID_DATA))
    with (inr (A := PA.ResultRow)
            (mkRejected ((LNum 2024, VFloat 1.0) :: labelled VALID_DATA)
               (SystemError TypeError))).
  cbn. repeat split. exists errors. reflexivity.
Qed.

End DriverCoverage.
